(** * mkdocs-filter: the log-stream classifier, embedded and verified

    A shallow embedding of [src/mkdocs_filter/parsing.py], of the two
    state-handling methods of [src/docs_output_filter/mcp_server.py]
    ([_refresh_from_state_file] and [_get_issue_id]) and of [truncate_line]
    of [src/docs_output_filter/display.py], together with the properties
    the specification states about them.

    Conventions of the embedding.
    - A Python [str] is a [string]; a character is a code point in the
      Latin-1 range 0..255.  [str.strip], [\s], [\d] and [.] follow
      Python's tables restricted to that range.
    - A Python [list] is a [list]; [lines[i]] is [py_index], which raises
      [IndexError] out of range, in the monad [res]; a group that took no
      part in a match is [None], and using it as a string raises.
    - A [while] loop is a fixpoint on a fuel argument; the function that
      starts the loop supplies the fuel, and the theorems show it is enough.
    - [re.search], [re.match] and [re.sub] are interpreted by one
      backtracking matcher over the patterns written as [regex] terms. *)

From Stdlib Require Import Ascii String Floats.
From stdpp Require Import base decidable option list strings gmap numbers sorting.


Local Open Scope bool_scope.

(** ** Python strings *)

Module PyStr.

Definition code (c : ascii) : N := N_of_ascii c.

Definition in_range (lo hi : N) (c : ascii) : bool :=
  (lo <=? code c)%N && (code c <=? hi)%N.

(** [str.isspace] on one character: the whitespace code points below 256. *)
Definition isspace (c : ascii) : bool :=
  in_range 9 13 c || in_range 28 32 c || (code c =? 133)%N || (code c =? 160)%N.

(** The decimal digits below 256 are 0-9. *)
Definition isdigit (c : ascii) : bool := in_range 48 57 c.

(** Truth value of a string: non-empty. *)
Definition truthy (s : string) : bool :=
  match s with "" => false | String _ _ => true end.

Fixpoint lstrip (s : string) : string :=
  match s with
  | "" => ""
  | String c s' => if isspace c then lstrip s' else s
  end.

Fixpoint rstrip (s : string) : string :=
  match s with
  | "" => ""
  | String c s' =>
      let r := rstrip s' in
      if negb (truthy r) && isspace c then "" else String c r
  end.

Definition strip (s : string) : string := lstrip (rstrip s).

(** [s.startswith(p)]; on success the rest of [s] is returned. *)
Fixpoint strip_prefix (p s : string) : option string :=
  match p, s with
  | "", _ => Some s
  | String a p', String b s' => if Ascii.eqb a b then strip_prefix p' s' else None
  | String _ _, "" => None
  end.

Definition startswith (p s : string) : bool := bool_decide (is_Some (strip_prefix p s)).

(** [sub in s] *)
Fixpoint contains (sub s : string) : bool :=
  startswith sub s ||
  match s with
  | "" => false
  | String _ s' => contains sub s'
  end.

(** [sep.join(l)] *)
Definition join (sep : string) (l : list string) : string := String.concat sep l.

(** The first [n] characters of [s]. *)
Fixpoint take (n : nat) (s : string) : string :=
  match n, s with
  | S n', String c s' => String c (take n' s')
  | _, _ => ""
  end.

(** Every character of [s] satisfies [p]. *)
Fixpoint all_chars (p : ascii → bool) (s : string) : bool :=
  match s with
  | "" => true
  | String c s' => p c && all_chars p s'
  end.

End PyStr.

(** ** Regular expressions

    The patterns of the program use literals, character classes, bounded
    and unbounded repetition of a character class (greedy or lazy),
    alternation and numbered groups.  [rmatch] is the backtracking matcher
    of [re]: alternatives left to right, a greedy repetition longest first,
    a lazy one shortest first; the continuation [k] is the rest of the
    pattern, and a failed alternative leaves no capture behind. *)

Module Re.
Import PyStr.

Inductive regex : Type :=
| Lit (s : string)
| Cls (p : ascii → bool)
| Rep (greedy : bool) (lo : nat) (hi : option nat) (p : ascii → bool)
| Seq (r1 r2 : regex)
| Alt (r1 r2 : regex)
| Grp (n : nat) (r : regex).

Definition caps : Type := list (nat * string).

Definition hi_allows (hi : option nat) : bool :=
  match hi with Some 0 => false | _ => true end.

Definition hi_pred (hi : option nat) : option nat :=
  match hi with Some n => Some (pred n) | None => None end.

Section Matcher.
Context {R : Type}.

Fixpoint rep_greedy (p : ascii → bool) (lo : nat) (hi : option nat)
    (s : string) (k : string → option R) : option R :=
  match s with
  | String c s' =>
      if p c && hi_allows hi then
        match rep_greedy p (pred lo) (hi_pred hi) s' k with
        | Some r => Some r
        | None => if (lo =? 0)%nat then k s else None
        end
      else if (lo =? 0)%nat then k s else None
  | "" => if (lo =? 0)%nat then k s else None
  end.

Fixpoint rep_lazy (p : ascii → bool) (lo : nat) (hi : option nat)
    (s : string) (k : string → option R) : option R :=
  let more :=
    match s with
    | String c s' =>
        if p c && hi_allows hi then rep_lazy p (pred lo) (hi_pred hi) s' k else None
    | "" => None
    end in
  if (lo =? 0)%nat then
    match k s with
    | Some r => Some r
    | None => more
    end
  else more.

Fixpoint rmatch (r : regex) (s : string) (cs : caps)
    (k : string → caps → option R) : option R :=
  match r with
  | Lit l =>
      match strip_prefix l s with
      | Some s' => k s' cs
      | None => None
      end
  | Cls p =>
      match s with
      | String c s' => if p c then k s' cs else None
      | "" => None
      end
  | Rep g lo hi p =>
      (if g then rep_greedy else rep_lazy) p lo hi s (λ s', k s' cs)
  | Seq r1 r2 => rmatch r1 s cs (λ s' cs', rmatch r2 s' cs' k)
  | Alt r1 r2 =>
      match rmatch r1 s cs k with
      | Some x => Some x
      | None => rmatch r2 s cs k
      end
  | Grp n r1 =>
      rmatch r1 s cs
        (λ s' cs', k s' ((n, take (String.length s - String.length s') s) :: cs'))
  end.
End Matcher.

(** A match object: the text after the match and the groups. *)
Record Match : Type := { rest : string; groups : caps }.

(** [re.match(r, s)]: the pattern at position 0. *)
Definition re_match (r : regex) (s : string) : option Match :=
  rmatch r s [] (λ s' cs, Some {| rest := s'; groups := cs |}).

(** [re.search(r, s)]: the first position where the pattern matches. *)
Fixpoint re_search (r : regex) (s : string) : option Match :=
  match re_match r s with
  | Some m => Some m
  | None =>
      match s with
      | "" => None
      | String _ s' => re_search r s'
      end
  end.

(** [m.group(n)]: [None] for a group that took no part in the match. *)
Fixpoint lookup_group (n : nat) (cs : caps) : option string :=
  match cs with
  | [] => None
  | (i, v) :: cs' => if (i =? n)%nat then Some v else lookup_group n cs'
  end.

Definition group (n : nat) (m : Match) : option string := lookup_group n (groups m).

(** [re.sub(r, "", s)] for a pattern anchored with [^] that cannot match
    the empty string: the match at position 0, if any, is removed. *)
Definition sub_prefix (r : regex) (s : string) : string :=
  match re_match r s with
  | Some m => rest m
  | None => s
  end.

Definition matches (o : option Match) : bool := bool_decide (is_Some o).

(** Character classes. *)
Definition d : ascii → bool := isdigit.
Definition s_ : ascii → bool := isspace.
Definition S_ : ascii → bool := λ c, negb (isspace c).
Definition dot : ascii → bool := λ c, negb (Ascii.eqb c "010").
Definition d_or_dot : ascii → bool := λ c, isdigit c || Ascii.eqb c ".".
Definition is_ (a : ascii) : ascii → bool := λ c, Ascii.eqb c a.
Definition not_ (a : ascii) : ascii → bool := λ c, negb (Ascii.eqb c a).

(** Quantifiers over a class. *)
Definition star (p : ascii → bool) : regex := Rep true 0 None p.
Definition plus (p : ascii → bool) : regex := Rep true 1 None p.
Definition opt (p : ascii → bool) : regex := Rep true 0 (Some 1) p.
Definition exactly (n : nat) (p : ascii → bool) : regex := Rep true n (Some n) p.
Definition lazy_star (p : ascii → bool) : regex := Rep false 0 None p.

(** Concatenation and alternation of several patterns. *)
Definition cat (rs : list regex) : regex := foldr Seq (Lit "") rs.

Fixpoint alt (r : regex) (rs : list regex) : regex :=
  match rs with
  | [] => r
  | r' :: rs' => Alt r (alt r' rs')
  end.

End Re.

(** ** Results of fallible, fuelled computations *)

Inductive exn : Type := IndexError | AttributeError | TypeError | OverflowError.

Inductive res (A : Type) : Type :=
| Ok (a : A)
| Raise (e : exn)
| OutOfFuel.
Arguments Ok {A} a.
Arguments Raise {A} e.
Arguments OutOfFuel {A}.

Global Instance res_ret : MRet res := λ A a, Ok a.

Global Instance res_bind : MBind res := λ A B f m,
  match m with
  | Ok a => f a
  | Raise e => Raise e
  | OutOfFuel => OutOfFuel
  end.

(** [l[j]] of Python: a negative index counts from the end. *)
Definition py_index {A : Type} (l : list A) (j : Z) : res A :=
  let n := Z.of_nat (length l) in
  let pos := if (0 <=? j)%Z then j else (n + j)%Z in
  if (0 <=? pos)%Z then
    match l !! Z.to_nat pos with
    | Some x => Ok x
    | None => Raise IndexError
    end
  else Raise IndexError.

(** [v.strip()] and [v + t] on a value [v] that is a string or [None]. *)
Definition py_strip (v : option string) : res string :=
  match v with
  | Some s => Ok (PyStr.strip s)
  | None => Raise AttributeError
  end.

Definition py_concat (v : option string) (t : string) : res string :=
  match v with
  | Some s => Ok (s +:+ t)
  | None => Raise TypeError
  end.

(** [range(a, b, -1)]: a, a-1, ..., b+1. *)
Definition range_down (a b : Z) : list Z :=
  (λ k : nat, (a - Z.of_nat k)%Z) <$> seq 0 (Z.to_nat (a - b)).

(** [range(a, b)]: a, a+1, ..., b-1. *)
Definition range_up (a b : Z) : list Z :=
  (λ k : nat, (a + Z.of_nat k)%Z) <$> seq 0 (Z.to_nat (b - a)).

(** [s.split(sep)] for a separator of one character. *)
Fixpoint py_split (sep : ascii) (s : string) : list string :=
  match s with
  | "" => [""]
  | String c s' =>
      if Ascii.eqb c sep then "" :: py_split sep s'
      else
        match py_split sep s' with
        | [] => [String c ""]
        | h :: t => String c h :: t
        end
  end.

(** [s[n:]] and [s[:n]] for a string and an integer that may be negative. *)
Fixpoint drop_chars (n : nat) (s : string) : string :=
  match n, s with
  | S n', String _ s' => drop_chars n' s'
  | _, _ => s
  end.

Definition py_slice_from (s : string) (n : Z) : string :=
  if (0 <=? n)%Z then drop_chars (Z.to_nat n) s
  else drop_chars (String.length s - Z.to_nat (- n)) s.

Definition py_slice_to (s : string) (n : Z) : string :=
  if (0 <=? n)%Z then PyStr.take (Z.to_nat n) s
  else PyStr.take (String.length s - Z.to_nat (- n)) s.

(** [s.ljust(width)] *)
Fixpoint spaces (n : nat) : string :=
  match n with
  | 0 => ""
  | S n' => String " " (spaces n')
  end.

(** The width is converted to a signed 64-bit index before anything else:
    a width outside that range raises [OverflowError].  Memory has no bound
    here: a width inside the range that is too large to allocate, for which
    Python raises [MemoryError], gives the padded string. *)
Definition fits_ssize_t (n : Z) : bool := (- 2 ^ 63 <=? n)%Z && (n <? 2 ^ 63)%Z.

Definition py_ljust (s : string) (width : Z) : res string :=
  if fits_ssize_t width then Ok (s +:+ spaces (Z.to_nat width - String.length s))
  else Raise OverflowError.

(** ** src/mkdocs_filter/parsing.py *)

Module Parsing.
Import PyStr Re.

Inductive Level : Type := ERROR | WARNING.

Record Issue : Type := {
  level : Level;
  source : string;
  message : string;
  file : option string;
  code : option string;
  output : option string
}.

Record BuildInfo : Type := {
  server_url : option string;
  build_dir : option string;
  build_time : option string
}.

Inductive ChunkBoundary : Type :=
| BUILD_COMPLETE
| SERVER_STARTED
| REBUILD_STARTED
| ERROR_BLOCK_END
| NONE.

(** *** The patterns *)

Definition quote : string := String "034" "".

(** [\d{4}-\d{2}-\d{2}] *)
Definition DATE : regex :=
  cat [exactly 4 d; Lit "-"; exactly 2 d; Lit "-"; exactly 2 d].

(** [Documentation built in [\d.]+ seconds] *)
Definition RE_BUILT : regex :=
  cat [Lit "Documentation built in "; plus d_or_dot; Lit " seconds"].

(** [Documentation built in ([\d.]+) seconds] *)
Definition RE_BUILT_TIME : regex :=
  cat [Lit "Documentation built in "; Grp 1 (plus d_or_dot); Lit " seconds"].

(** [Serving on https?://] *)
Definition RE_SERVING : regex :=
  cat [Lit "Serving on http"; opt (is_ "s"); Lit "://"].

(** [Serving on (https?://\S+)] *)
Definition RE_SERVING_URL : regex :=
  cat [Lit "Serving on ";
       Grp 1 (cat [Lit "http"; opt (is_ "s"); Lit "://"; plus S_])].

(** [Building documentation to directory: (.+)] *)
Definition RE_BUILD_DIR : regex :=
  cat [Lit "Building documentation to directory: "; Grp 1 (plus dot)].

(** [^\d{4}-\d{2}-\d{2}] *)
Definition RE_DATE : regex := DATE.

(** [^(INFO|WARNING|ERROR)\s*-] *)
Definition RE_LEVEL3 : regex :=
  cat [Grp 1 (alt (Lit "INFO") [Lit "WARNING"; Lit "ERROR"]); star s_; Lit "-"].

(** [^\d{4}-\d{2}-\d{2}.*?(INFO|WARNING|ERROR)] *)
Definition RE_DATED_LEVEL3 : regex :=
  cat [DATE; lazy_star dot; Grp 1 (alt (Lit "INFO") [Lit "WARNING"; Lit "ERROR"])].

(** [^(INFO|DEBUG|WARNING|ERROR)\s*-] *)
Definition RE_LEVEL4 : regex :=
  cat [Grp 1 (alt (Lit "INFO") [Lit "DEBUG"; Lit "WARNING"; Lit "ERROR"]);
       star s_; Lit "-"].

(** [^\[stderr\]] *)
Definition RE_STDERR : regex := Lit "[stderr]".

(** [^\[stderr\]\s*] *)
Definition RE_STDERR_PREFIX : regex := cat [Lit "[stderr]"; star s_].

(** [^\d{4}-\d{2}-\d{2}.*?-\s*] *)
Definition RE_DATE_PREFIX : regex := cat [DATE; lazy_star dot; Lit "-"; star s_].

(** [^(WARNING|ERROR)\s*-?\s*] *)
Definition RE_LEVEL_PREFIX : regex :=
  cat [Grp 1 (alt (Lit "WARNING") [Lit "ERROR"]); star s_; opt (is_ "-"); star s_].

(** ['([^']+\.md)'] *)
Definition RE_MD_SINGLE : regex :=
  cat [Lit "'"; Grp 1 (cat [plus (not_ "'"); Lit ".md"]); Lit "'"].

(** The same between double quotes. *)
Definition RE_MD_DOUBLE : regex :=
  cat [Lit quote; Grp 1 (cat [plus (not_ "034"); Lit ".md"]); Lit quote].

(** [DEBUG\s*-\s*Reading:\s*(\S+\.md)] *)
Definition RE_READING : regex :=
  cat [Lit "DEBUG"; star s_; Lit "-"; star s_; Lit "Reading:"; star s_;
       Grp 1 (cat [plus S_; Lit ".md"])].

(** [Generated breadcrumb string:.*\[([^\]]+)\]\(/([^)]+)\)] *)
Definition RE_BREADCRUMB : regex :=
  cat [Lit "Generated breadcrumb string:"; star dot; Lit "[";
       Grp 1 (plus (not_ "]")); Lit "]"; Lit "(/"; Grp 2 (plus (not_ ")")); Lit ")"].

(** [Doc file '([^']+\.md)'] *)
Definition RE_DOC_FILE : regex :=
  cat [Lit "Doc file '"; Grp 1 (cat [plus (not_ "'"); Lit ".md"]); Lit "'"].

(** [File "<code block: session ([^;]+); n(\d+)>", line (\d+)] *)
Definition RE_SESSION : regex :=
  cat [Lit ("File " +:+ quote +:+ "<code block: session ");
       Grp 1 (plus (not_ ";")); Lit "; n"; Grp 2 (plus d);
       Lit (">" +:+ quote +:+ ", line "); Grp 3 (plus d)].

(** *** detect_chunk_boundary *)

Definition detect_chunk_boundary (line : string) (prev_line : option string)
    : ChunkBoundary :=
  let stripped := strip line in
  if matches (re_search RE_BUILT line) then BUILD_COMPLETE
  else if matches (re_search RE_SERVING line) then SERVER_STARTED
  else if contains "Detected file changes" line || contains "Reloading docs" line
  then REBUILD_STARTED
  else if matches (re_match RE_DATE stripped) && contains "Building documentation" line
  then REBUILD_STARTED
  else if match prev_line with
          | Some p => negb (truthy (strip p))
          | None => false
          end
  then
    if matches (re_match RE_LEVEL3 stripped) then ERROR_BLOCK_END
    else if matches (re_match RE_DATED_LEVEL3 stripped) then ERROR_BLOCK_END
    else NONE
  else NONE.

(** *** extract_build_info *)

(** One iteration of the loop: each field is overwritten when its pattern
    is found in the line. *)
Definition extract_step (info : BuildInfo) (line : string) : res BuildInfo :=
  let info :=
    match re_search RE_SERVING_URL line with
    | Some m => {| server_url := group 1 m; build_dir := build_dir info;
                   build_time := build_time info |}
    | None => info
    end in
  let info :=
    match re_search RE_BUILT_TIME line with
    | Some m => {| server_url := server_url info; build_dir := build_dir info;
                   build_time := group 1 m |}
    | None => info
    end in
  match re_search RE_BUILD_DIR line with
  | Some m =>
      dir ← py_strip (group 1 m);
      Ok {| server_url := server_url info; build_dir := Some dir;
            build_time := build_time info |}
  | None => Ok info
  end.

(** [for line in lines] *)
Fixpoint extract_loop (info : BuildInfo) (lines : list string) : res BuildInfo :=
  match lines with
  | [] => Ok info
  | line :: lines' => info' ← extract_step info line; extract_loop info' lines'
  end.

Definition extract_build_info (lines : list string) : res BuildInfo :=
  extract_loop {| server_url := None; build_dir := None; build_time := None |} lines.

(** *** parse_markdown_exec_issue *)

(** The three tests of the backward loop on one line: [Some] of the new
    value of [file_path] when one of them succeeds (the loop then ends). *)
Definition file_hint (prev_line : string) : res (option (option string)) :=
  match re_search RE_READING prev_line with
  | Some m => Ok (Some (group 1 m))
  | None =>
      match re_search RE_BREADCRUMB prev_line with
      | Some m =>
          potential_file ← py_concat (group 2 m) ".md";
          Ok (Some (Some potential_file))
      | None =>
          match re_search RE_DOC_FILE prev_line with
          | Some m => Ok (Some (group 1 m))
          | None => Ok None
          end
      end
  end.

(** The backward loop over [range(start - 1, max(-1, start - 50), -1)]. *)
Fixpoint find_file (lines : list string) (js : list Z) : res (option string) :=
  match js with
  | [] => Ok None
  | j :: js' =>
      prev_line ← py_index lines j;
      hint ← file_hint prev_line;
      match hint with
      | Some file_path => Ok file_path
      | None => find_file lines js'
      end
  end.

(** The local variables of the forward loop. *)
Record scan_state : Type := {
  in_code : bool;
  in_output : bool;
  code_lines : list string;
  output_lines : list string;
  session_info : option string;
  line_number : option string
}.

Definition scan_init : scan_state :=
  {| in_code := false; in_output := false; code_lines := []; output_lines := [];
     session_info := None; line_number := None |}.

(** The three stop conditions, on the stripped line. *)
Definition is_stop (stripped : string) : bool :=
  matches (re_match RE_LEVEL4 stripped)
  || matches (re_match RE_DATE stripped)
  || matches (re_match RE_STDERR stripped).

(** The body of the forward loop on one line; [None] is [break]. *)
Definition scan_step (st : scan_state) (line : string) : option scan_state :=
  let stripped := strip line in
  if bool_decide (stripped = "Code block is:") then
    Some {| in_code := true; in_output := false;
            code_lines := code_lines st; output_lines := output_lines st;
            session_info := session_info st; line_number := line_number st |}
  else if bool_decide (stripped = "Output is:") then
    Some {| in_code := false; in_output := true;
            code_lines := code_lines st; output_lines := output_lines st;
            session_info := session_info st; line_number := line_number st |}
  else if is_stop stripped then None
  else if in_code st && truthy stripped then
    Some {| in_code := in_code st; in_output := in_output st;
            code_lines := code_lines st ++ [rstrip line];
            output_lines := output_lines st;
            session_info := session_info st; line_number := line_number st |}
  else if in_output st && truthy stripped then
    let out := output_lines st ++ [rstrip line] in
    match re_search RE_SESSION stripped with
    | Some m =>
        Some {| in_code := in_code st; in_output := in_output st;
                code_lines := code_lines st; output_lines := out;
                session_info := group 1 m; line_number := group 3 m |}
    | None =>
        Some {| in_code := in_code st; in_output := in_output st;
                code_lines := code_lines st; output_lines := out;
                session_info := session_info st; line_number := line_number st |}
    end
  else Some st.

(** [while i < len(lines)]: the state and the index at which the loop ends. *)
Fixpoint scan_loop (fuel : nat) (lines : list string) (i : nat) (st : scan_state)
    : res (scan_state * nat) :=
  match fuel with
  | 0 => OutOfFuel
  | S fuel' =>
      if (i <? length lines)%nat then
        line ← py_index lines (Z.of_nat i);
        match scan_step st line with
        | None => Ok (st, i)
        | Some st' => scan_loop fuel' lines (S i) st'
        end
      else Ok (st, i)
  end.

(** The test of the reverse scan, on a stripped output line. *)
Definition is_error_line (line : string) : bool :=
  truthy line
  && (contains "Error:" line || contains "Exception:" line)
  && negb (startswith "File " line).

(** [for line in reversed(output_lines)], given the reversed list. *)
Fixpoint find_error_msg (rev_lines : list string) : string :=
  match rev_lines with
  | [] => "Code execution failed"
  | line :: rest =>
      let line := strip line in
      if is_error_line line then line else find_error_msg rest
  end.

Definition opt_truthy (o : option string) : bool :=
  match o with
  | Some s => truthy s
  | None => false
  end.

(** The separator of the location parts, as line 282 writes it: three
    characters between two spaces.  The literal is not ASCII, and it is held
    as the bytes the source file has between the quotes: eight bytes between
    the two spaces (c3 a2, e2 80 a0, e2 80 99). *)
Definition location_sep : string := " â†’ ".

Definition location_parts (file_path session_info line_number : option string)
    : list string :=
  (if opt_truthy file_path then [default "" file_path] else [])
  ++ (if opt_truthy session_info
      then ["session '" +:+ default "" session_info +:+ "'"] else [])
  ++ (if opt_truthy line_number then ["line " +:+ default "" line_number] else []).

(** ["\n".join(l) if l else None] *)
Definition join_or_none (sep : string) (l : list string) : option string :=
  match l with
  | [] => None
  | _ :: _ => Some (join sep l)
  end.

Definition newline : string := String "010" "".

Definition parse_markdown_exec_issue (lines : list string) (start : nat) (lvl : Level)
    : res (option Issue * nat) :=
  let s := Z.of_nat start in
  file_path ← find_file lines (range_down (s - 1) (Z.max (-1) (s - 50)));
  r ← scan_loop (S (length lines)) lines (start + 1) scan_init;
  let '(st, i) := r in
  let error_msg := find_error_msg (reverse (output_lines st)) in
  let parts := location_parts file_path (session_info st) (line_number st) in
  Ok (Some {| level := lvl;
              source := "markdown_exec";
              message := error_msg;
              file := join_or_none location_sep parts;
              code := join_or_none newline (code_lines st);
              output := join_or_none newline (output_lines st) |},
      i).

(** *** parse_mkdocs_output *)

(** The file named by a regular warning. *)
Definition md_file_of (message : string) : option string :=
  match re_search RE_MD_SINGLE message with
  | Some m => group 1 m
  | None =>
      match re_search RE_MD_DOUBLE message with
      | Some m => group 1 m
      | None => None
      end
  end.

(** The three [re.sub] calls that remove the prefixes of a log line. *)
Definition strip_log_prefixes (line : string) : string :=
  sub_prefix RE_LEVEL_PREFIX (sub_prefix RE_DATE_PREFIX (sub_prefix RE_STDERR_PREFIX line)).

(** The part of the loop body after the markdown_exec test: the issues
    after this line. *)
Definition regular_issue (issues : list Issue) (line : string) (lvl : Level)
    : list Issue :=
  let stripped := strip line in
  if startswith "raise " stripped || startswith "File " stripped then issues
  else
    let message := strip_log_prefixes line in
    if truthy (strip message) then
      issues ++ [{| level := lvl; source := "mkdocs"; message := strip message;
                    file := md_file_of message; code := None; output := None |}]
    else issues.

Fixpoint parse_loop (fuel : nat) (lines : list string) (i : nat) (skip_until : Z)
    (issues : list Issue) : res (list Issue) :=
  match fuel with
  | 0 => OutOfFuel
  | S fuel' =>
      if (i <? length lines)%nat then
        if (Z.of_nat i <? skip_until)%Z then
          parse_loop fuel' lines (S i) skip_until issues
        else
          line ← py_index lines (Z.of_nat i);
          if contains "WARNING" line || contains "ERROR" line then
            let lvl := if contains "ERROR" line then ERROR else WARNING in
            if contains "markdown_exec" line then
              r ← parse_markdown_exec_issue lines i lvl;
              match r with
              | (Some issue, end_idx) =>
                  parse_loop fuel' lines end_idx (Z.of_nat end_idx) (issues ++ [issue])
              | (None, _) =>
                  parse_loop fuel' lines (S i) skip_until (regular_issue issues line lvl)
              end
            else
              parse_loop fuel' lines (S i) skip_until (regular_issue issues line lvl)
          else parse_loop fuel' lines (S i) skip_until issues
      else Ok issues
  end.

Definition parse_mkdocs_output (lines : list string) : res (list Issue) :=
  parse_loop (S (length lines)) lines 0 (-1) [].

(** *** is_in_multiline_block *)

Definition tab : string := String "009" "".

(** The test that opens a block, on a raw line. *)
Definition is_block_header (line : string) : bool :=
  contains "markdown_exec" line && (contains "WARNING" line || contains "ERROR" line).

(** The test that closes a block, on a stripped line. *)
Definition closes_block (check_line : string) : bool :=
  truthy check_line
  && negb (startswith " " check_line)
  && negb (startswith tab check_line)
  && (matches (re_match RE_LEVEL3 check_line)
      || matches (re_match RE_DATED_LEVEL3 check_line)).

(** The inner loop over [range(i + 1, len(lines))]: whether a line closes
    the block. *)
Fixpoint block_closed (lines : list string) (js : list Z) : res bool :=
  match js with
  | [] => Ok false
  | j :: js' =>
      line ← py_index lines j;
      if closes_block (strip line) then Ok true else block_closed lines js'
  end.

(** The outer loop over [range(len(lines) - 1, -1, -1)]. *)
Fixpoint multiline_scan (lines : list string) (idx : list Z) : res bool :=
  match idx with
  | [] => Ok false
  | i :: idx' =>
      line ← py_index lines i;
      if is_block_header line then
        closed ← block_closed lines (range_up (i + 1) (Z.of_nat (length lines)));
        Ok (negb closed)
      else multiline_scan lines idx'
  end.

Definition is_in_multiline_block (lines : list string) : res bool :=
  match lines with
  | [] => Ok false
  | _ :: _ => multiline_scan lines (range_down (Z.of_nat (length lines) - 1) (-1))
  end.

(** *** dedent_code *)

(** [len(line) - len(line.lstrip())] *)
Definition indent_of (line : string) : nat :=
  String.length line - String.length (lstrip line).

(** The loop that computes [min_indent]; [None] is [float("inf")]. *)
Definition min_indent_step (min_indent : option nat) (line : string) : option nat :=
  if truthy (strip line) then
    match min_indent with
    | None => Some (indent_of line)
    | Some m => Some (Nat.min m (indent_of line))
    end
  else min_indent.

Definition dedent_line (min_indent : nat) (line : string) : string :=
  if (min_indent <? String.length line)%nat
  then py_slice_from line (Z.of_nat min_indent)
  else line.

Definition dedent_code (code : string) : string :=
  let lines := py_split "010" code in
  match lines with
  | [] => code
  | _ :: _ =>
      match foldl min_indent_step None lines with
      | Some m => join newline (dedent_line m <$> lines)
      | None => code
      end
  end.

End Parsing.

(** ** hashlib.sha256 and str.encode

    [_get_issue_id] hashes the UTF-8 encoding of a string with SHA-256
    (FIPS 180-4).  Words are 32-bit naturals, additions wrap at 2^32. *)

Module Sha256.

Definition mask32 : N := 4294967295.
Definition add32 (a b : N) : N := N.land (a + b) mask32.
Definition rotr (n x : N) : N :=
  N.lor (N.shiftr x n) (N.land (N.shiftl x (32 - n)) mask32).
Definition not32 (x : N) : N := N.lxor x mask32.

Definition Ch (x y z : N) : N := N.lxor (N.land x y) (N.land (not32 x) z).
Definition Maj (x y z : N) : N :=
  N.lxor (N.lxor (N.land x y) (N.land x z)) (N.land y z).
Definition Sigma0 (x : N) : N := N.lxor (N.lxor (rotr 2 x) (rotr 13 x)) (rotr 22 x).
Definition Sigma1 (x : N) : N := N.lxor (N.lxor (rotr 6 x) (rotr 11 x)) (rotr 25 x).
Definition sigma0 (x : N) : N := N.lxor (N.lxor (rotr 7 x) (rotr 18 x)) (N.shiftr x 3).
Definition sigma1 (x : N) : N := N.lxor (N.lxor (rotr 17 x) (rotr 19 x)) (N.shiftr x 10).

(** The constants are defined as the standard defines them: the first 32
    bits of the fractional parts of the cube roots (for [K]) and of the
    square roots (for [H0]) of the first primes. *)
Definition is_prime (n : nat) : bool :=
  (1 <? n)%nat && forallb (λ k, negb (n mod k =? 0)%nat) (seq 2 (n - 2)).

Definition primes_below (n : nat) : list N :=
  N.of_nat <$> List.filter is_prime (seq 0 n).

(** The integer cube root of [x], bit by bit from bit [bits - 1] down. *)
Fixpoint cube_root (bits : nat) (x r : N) : N :=
  match bits with
  | 0 => r
  | S b =>
      let r' := (r + N.shiftl 1 (N.of_nat b))%N in
      cube_root b x (if (r' * r' * r' <=? x)%N then r' else r)
  end.

Definition K : list N :=
  (λ p, N.land (cube_root 36 (N.shiftl p 96) 0) mask32) <$> primes_below 312.

Definition H0 : list N :=
  (λ p, N.land (N.sqrt (N.shiftl p 64)) mask32) <$> primes_below 20.

(** Big-endian bytes of a number, [n] of them. *)
Fixpoint be_bytes (n : nat) (x : N) : list N :=
  match n with
  | 0 => []
  | S n' => N.land (N.shiftr x (8 * N.of_nat n')) 255 :: be_bytes n' x
  end.

Definition be_word (bs : list N) : N :=
  foldl (λ acc b, N.lor (N.shiftl acc 8) b) 0%N bs.

(** The message, a 1 bit, zeros up to 56 mod 64, the bit length on 8 bytes. *)
Definition pad (msg : list N) : list N :=
  let len := length msg in
  let zeros := ((55 + 64 - len mod 64) mod 64)%nat in
  msg ++ [128%N] ++ replicate zeros 0%N ++ be_bytes 8 (8 * N.of_nat len).

(** Cut a list in pieces of [n] elements; [fuel] bounds their number. *)
Fixpoint chunks {A : Type} (fuel n : nat) (l : list A) : list (list A) :=
  match fuel, l with
  | S fuel', _ :: _ => take n l :: chunks fuel' n (drop n l)
  | _, _ => []
  end.

(** The message schedule, most recent word first. *)
Fixpoint extend (n : nat) (w : list N) : list N :=
  match n with
  | 0 => w
  | S n' =>
      let x := add32 (add32 (sigma1 (w !!! 1%nat)) (w !!! 6%nat))
                     (add32 (sigma0 (w !!! 14%nat)) (w !!! 15%nat)) in
      extend n' (x :: w)
  end.

Definition schedule (block : list N) : list N :=
  reverse (extend 48 (reverse (be_word <$> chunks 16 4 block))).

Definition round (s : list N) (kw : N * N) : list N :=
  match s with
  | [a; b; c; d; e; f; g; h] =>
      let t1 := add32 (add32 (add32 h (Sigma1 e)) (add32 (Ch e f g) kw.1)) kw.2 in
      let t2 := add32 (Sigma0 a) (Maj a b c) in
      [add32 t1 t2; a; b; c; add32 d t1; e; f; g]
  | _ => s
  end.

Definition compress (h : list N) (block : list N) : list N :=
  zip_with add32 h (foldl round h (zip K (schedule block))).

(** [hashlib.sha256(msg).digest()]: 32 bytes. *)
Definition digest (msg : list N) : list N :=
  let p := pad msg in
  foldl compress H0 (chunks (length p) 64 p) ≫= be_bytes 4.

Definition hex_digit (x : N) : ascii :=
  if (x <? 10)%N then ascii_of_N (48 + x) else ascii_of_N (87 + x).

(** [bytes.hex()] *)
Fixpoint hex (bs : list N) : string :=
  match bs with
  | [] => ""
  | b :: bs' => String (hex_digit (N.shiftr b 4)) (String (hex_digit (N.land b 15)) (hex bs'))
  end.

(** [str.encode()]: UTF-8, for code points below 256. *)
Fixpoint encode (s : string) : list N :=
  match s with
  | "" => []
  | String c s' =>
      let n := N_of_ascii c in
      if (n <? 128)%N then n :: encode s'
      else N.lor 192 (N.shiftr n 6) :: N.lor 128 (N.land n 63) :: encode s'
  end.

End Sha256.

(** ** The record model of docs_output_filter *)

Module Types.
Import Parsing.

(** Modelled from the spec: the [Issue] of docs_output_filter/types.py, which
    is not in src.  The fields are those of section 3 of the specification,
    under the names [mcp_server.py] reads them by. *)
Record Issue : Type := {
  level : Level;
  source : string;
  message : string;
  file : option string;
  line_number : option nat;
  warning_code : option string;
  code : option string;
  output : option string
}.

(** Modelled from the spec: the categories of docs_output_filter/types.py,
    as the [get_info] tool of [mcp_server.py] enumerates them. *)
Inductive InfoCategory : Type :=
| BROKEN_LINK
| ABSOLUTE_LINK
| UNRECOGNIZED_LINK
| MISSING_NAV
| NO_GIT_LOGS
| DEPRECATION_WARNING.

(** Modelled from the spec: the [InfoMessage] of docs_output_filter/types.py. *)
Record InfoMessage : Type := {
  category : InfoCategory;
  info_file : string;
  target : option string;
  suggestion : option string
}.


Global Instance Level_eq_dec : EqDecision Level.
Proof. solve_decision. Defined.

End Types.

(** ** src/docs_output_filter/mcp_server.py *)

Module McpServer.
Import Parsing Types.

(** Modelled from the spec: the snapshot that [read_state_file] of
    docs_output_filter/state.py (not in src) returns, with the fields
    [_refresh_from_state_file] reads. *)
Record StateFileData : Type := {
  build_status : string;
  build_started_at : option float;
  timestamp : float;
  state_issues : list Issue;
  state_info_messages : list InfoMessage;
  state_build_info : BuildInfo;
  state_raw_output : list string
}.

(** The attributes of [DocsFilterServer] that the two methods touch. *)
Record DocsFilterServer : Type := {
  project_dir : option string;
  pipe_mode : bool;
  watch_mode : bool;
  issues : list Issue;
  info_messages : list InfoMessage;
  build_info : BuildInfo;
  raw_output : list string;
  _issue_ids : gmap string string;
  _last_state_timestamp : float;
  _build_status : string;
  _build_started_at : option float
}.

(** [__init__] *)
Definition new_server (project_dir : option string) (pipe_mode watch_mode : bool)
    : DocsFilterServer :=
  {| project_dir := project_dir; pipe_mode := pipe_mode; watch_mode := watch_mode;
     issues := []; info_messages := [];
     build_info := {| server_url := None; build_dir := None; build_time := None |};
     raw_output := []; _issue_ids := ∅; _last_state_timestamp := 0%float;
     _build_status := "complete"; _build_started_at := None |}.

Definition set_build_status (status : string) (started : option float)
    (self : DocsFilterServer) : DocsFilterServer :=
  {| project_dir := project_dir self; pipe_mode := pipe_mode self;
     watch_mode := watch_mode self; issues := issues self;
     info_messages := info_messages self; build_info := build_info self;
     raw_output := raw_output self; _issue_ids := _issue_ids self;
     _last_state_timestamp := _last_state_timestamp self;
     _build_status := status; _build_started_at := started |}.

Definition load_state (state : StateFileData) (self : DocsFilterServer)
    : DocsFilterServer :=
  {| project_dir := project_dir self; pipe_mode := pipe_mode self;
     watch_mode := watch_mode self; issues := state_issues state;
     info_messages := state_info_messages state;
     build_info := state_build_info state;
     raw_output := state_raw_output state; _issue_ids := _issue_ids self;
     _last_state_timestamp := timestamp state;
     _build_status := _build_status self;
     _build_started_at := _build_started_at self |}.


(** [_refresh_from_state_file]; [read_state_file] is the state file as the
    method finds it.  The result is the returned flag and the server
    afterwards. *)
Definition _refresh_from_state_file
    (read_state_file : option string → option StateFileData)
    (self : DocsFilterServer) : bool * DocsFilterServer :=
  if negb (watch_mode self) then (false, self)
  else
    match read_state_file (project_dir self) with
    | None => (false, self)
    | Some state =>
        let self := set_build_status (build_status state) (build_started_at state) self in
        if PrimFloat.leb (timestamp state) (_last_state_timestamp self) then (false, self)
        else (true, load_state state self)
    end.


(** [hashlib.sha256(content.encode()).digest()[:4].hex()] *)
Definition id_token (content : string) : string :=
  Sha256.hex (take 4 (Sha256.digest (Sha256.encode content))).



End McpServer.

(** ** src/docs_output_filter/display.py *)

Module Display.
Import PyStr Re Parsing.

(** [\w] on one character: the alphanumeric code points below 256 and the
    underscore. *)
Definition isword (c : ascii) : bool :=
  in_range 48 57 c || in_range 65 90 c || (PyStr.code c =? 95)%N || in_range 97 122 c
  || (PyStr.code c =? 170)%N || in_range 178 179 c || (PyStr.code c =? 181)%N
  || in_range 185 186 c || in_range 188 190 c || in_range 192 214 c
  || in_range 216 246 c || in_range 248 255 c.

Definition word_or_dot : ascii → bool := λ c, isword c || Ascii.eqb c ".".

(** [^\d{4}-\d{2}-\d{2}\s+\d{2}:\d{2}:\d{2},\d+\s*-\s*] *)
Definition RE_TIMESTAMP_PREFIX : regex :=
  cat [DATE; plus s_; exactly 2 d; Lit ":"; exactly 2 d; Lit ":"; exactly 2 d;
       Lit ","; plus d; star s_; Lit "-"; star s_].

(** [^[\w.]+\s*-\s*(INFO|WARNING|ERROR)\s*-\s*] *)
Definition RE_LOGGER_PREFIX : regex :=
  cat [plus word_or_dot; star s_; Lit "-"; star s_;
       Grp 1 (alt (Lit "INFO") [Lit "WARNING"; Lit "ERROR"]);
       star s_; Lit "-"; star s_].

Definition truncate_line (line : string) (max_len : Z) (pad : bool) : res string :=
  let line := strip line in
  let line := sub_prefix RE_STDERR_PREFIX line in
  let line := sub_prefix RE_TIMESTAMP_PREFIX line in
  let line := sub_prefix RE_LOGGER_PREFIX line in
  if (max_len <? Z.of_nat (String.length line))%Z
  then Ok (py_slice_to line max_len +:+ "...")
  else if pad then py_ljust line max_len
  else Ok line.

End Display.

(** ** Vocabulary of the statements *)

Module Props.
Import PyStr Re Parsing.

(** The forward loop of [parse_markdown_exec_issue] as a recursion on the
    lines that remain; [scan_loop_list] below relates it to [scan_loop]. *)
Fixpoint scan_list (rest : list string) (i : nat) (st : scan_state)
    : scan_state * nat :=
  match rest with
  | [] => (st, i)
  | line :: rest' =>
      match scan_step st line with
      | None => (st, i)
      | Some st' => scan_list rest' (S i) st'
      end
  end.

(** A line inside a record: neither a section marker nor a top-level log
    line. *)
Definition is_content (line : string) : bool :=
  negb (bool_decide (strip line = "Code block is:"))
  && negb (bool_decide (strip line = "Output is:"))
  && negb (is_stop (strip line)).

Definition nonblank (line : string) : bool := truthy (strip line).

(** The non-blank lines of a section, as the loop stores them. *)
Definition kept (ls : list string) : list string := rstrip <$> List.filter nonblank ls.

(** What a line says about each field of the build information. *)
Definition server_url_of (line : string) : option string :=
  re_search RE_SERVING_URL line ≫= group 1.

Definition build_time_of (line : string) : option string :=
  re_search RE_BUILT_TIME line ≫= group 1.

Definition build_dir_of (line : string) : option string :=
  strip <$> (re_search RE_BUILD_DIR line ≫= group 1).

(** The pattern sets group [n] on every path through it. *)
Fixpoint defines (n : nat) (r : regex) : bool :=
  match r with
  | Grp m r1 => (m =? n)%nat || defines n r1
  | Seq r1 r2 => defines n r1 || defines n r2
  | Alt r1 r2 => defines n r1 && defines n r2
  | Lit _ | Cls _ | Rep _ _ _ _ => false
  end.

(** [field] is what [f] extracts from the last line of [lines] on which it
    extracts something, and nothing when there is no such line. *)
Definition last_write_wins (f : string → option string) (lines : list string)
    (field : option string) : Prop :=
  (∀ pre x post v,
     lines = pre ++ x :: post → f x = Some v → Forall (λ y, f y = None) post →
     field = Some v)
  ∧ (Forall (λ y, f y = None) lines → field = None).

(** [msg] is the stripped last line of [out] that passes [is_error_line], and
    the placeholder when there is no such line. *)
Definition selects_message (out : list string) (msg : string) : Prop :=
  (∀ pre x post,
     out = pre ++ x :: post → is_error_line (strip x) = true →
     Forall (λ y, is_error_line (strip y) = false) post →
     msg = strip x)
  ∧ (Forall (λ y, is_error_line (strip y) = false) out → msg = "Code execution failed").

(** Overwriting an optional value by what [f] finds, line after line. *)
Definition overwrite (f : string → option string) (acc : option string)
    (lines : list string) : option string :=
  foldl (λ acc x, match f x with Some v => Some v | None => acc end) acc lines.



(** The record of the test suite of the repository. *)
Definition exec_block : list string :=
  ["DEBUG   -  Reading: test.md";
   "WARNING -  markdown_exec: Execution of python code block exited with errors";
   "";
   "Code block is:";
   "";
   "  x = 1";
   "  y = 2";
   "  raise ValueError('error')";
   "";
   "Output is:";
   "";
   "  Traceback (most recent call last):";
   "    File " +:+ quote +:+ "<code block: session mytest; n1>" +:+ quote
     +:+ ", line 3, in <module>";
   "      raise ValueError('error')";
   "  ValueError: error";
   "";
   "INFO -  Done"].

(** The lines on which [parse_mkdocs_output] looks for an issue. *)
Definition is_level_line (line : string) : bool :=
  contains "WARNING" line || contains "ERROR" line.

Definition level_of_line (line : string) : Level :=
  if contains "ERROR" line then ERROR else WARNING.

(** The test of lines 163 to 166, on a raw line: a line of a traceback. *)
Definition is_traceback_line (line : string) : bool :=
  startswith "raise " (strip line) || startswith "File " (strip line).

(** The issue that [parse_mkdocs_output] reports for line [i] of [lines]:
    the line contains [WARNING] or [ERROR] and gives the issue its level;
    at a [markdown_exec] line the issue is the one that
    [parse_markdown_exec_issue] builds from there, elsewhere the line is not
    a line of a traceback, the message is the line without its log prefixes,
    stripped, and the file is the quoted [.md] path of the message. *)
Definition issue_of_line (lines : list string) (i : nat) (issue : Issue) : Prop :=
  ∃ line,
    lines !! i = Some line
    ∧ is_level_line line = true
    ∧ level issue = level_of_line line
    ∧ if contains "markdown_exec" line
      then source issue = "markdown_exec"
           ∧ ∃ end_idx,
               parse_markdown_exec_issue lines i (level_of_line line)
               = Ok (Some issue, end_idx)
      else is_traceback_line line = false
           ∧ issue = {| level := level_of_line line; source := "mkdocs";
                        message := strip (strip_log_prefixes line);
                        file := md_file_of (strip_log_prefixes line);
                        code := None; output := None |}.

(** What every issue of [parse_mkdocs_output] satisfies, for the lines it was
    parsed from and the index of the line it comes from. *)
Definition well_formed_issue (lines : list string) (i : nat) (issue : Issue) : Prop :=
  message issue ≠ ""
  ∧ strip (message issue) = message issue
  ∧ issue_of_line lines i issue.

(** The issue of a line that has nothing to do with [markdown_exec], if it
    has one: the line contains [WARNING] or [ERROR], is no line of a
    traceback and keeps a message once its log prefixes are removed. *)
Definition issue_of_plain_line (line : string) : option Issue :=
  if is_level_line line && negb (is_traceback_line line)
     && truthy (strip (strip_log_prefixes line))
  then Some {| level := level_of_line line; source := "mkdocs";
               message := strip (strip_log_prefixes line);
               file := md_file_of (strip_log_prefixes line);
               code := None; output := None |}
  else None.

(** The line that [truncate_line] measures: the stripped line without the
    three prefixes. *)
Definition clean_line (line : string) : string :=
  sub_prefix Display.RE_LOGGER_PREFIX
    (sub_prefix Display.RE_TIMESTAMP_PREFIX
       (sub_prefix RE_STDERR_PREFIX (strip line))).

(** The pattern without its groups. *)
Fixpoint erase (r : regex) : regex :=
  match r with
  | Grp _ r1 => erase r1
  | Seq r1 r2 => Seq (erase r1) (erase r2)
  | Alt r1 r2 => Alt (erase r1) (erase r2)
  | Lit _ | Cls _ | Rep _ _ _ _ => r
  end.

(** [b] where it says something, [a] elsewhere. *)
Definition or_else (b a : option string) : option string :=
  match b with
  | Some v => Some v
  | None => a
  end.

(** The lines after index [i] hold no header and none of them closes a
    block. *)
Definition open_from (lines : list string) (i : nat) : Prop :=
  ∀ j l, i < j → lines !! j = Some l →
    is_block_header l = false ∧ closes_block (strip l) = false.

(** No newline in the string. *)
Definition no_newline (s : string) : bool :=
  all_chars (λ c, negb (Ascii.eqb c "010")) s.

End Props.

(** * Properties *)

Import PyStr Re Parsing Props.

(** ** Strings and patterns *)

Section StringFacts.

Lemma strip_prefix_app (p s : string) : strip_prefix p (p +:+ s) = Some s.
Proof.
  induction p as [|c p IH]; simpl; [reflexivity|].
  rewrite Ascii.eqb_refl. exact IH.
Qed.

Lemma matches_Some (m : option Match) : matches m = true ↔ is_Some m.
Proof. unfold matches. apply bool_decide_eq_true. Qed.

(** A match at some position is found by the search. *)
Lemma re_search_app (r : regex) (pre s : string) :
  is_Some (re_match r s) → is_Some (re_search r (pre +:+ s)).
Proof.
  intros Hm. induction pre as [|c pre IH]; simpl.
  - destruct s; simpl; destruct (re_match r _); done.
  - destruct (re_match r (String c (pre +:+ s))); [done|exact IH].
Qed.

Lemma rep_greedy_zero {R} p hi s (k : string → option R) :
  is_Some (k s) → is_Some (rep_greedy p 0 hi s k).
Proof.
  intros Hk. destruct s as [|c s]; simpl; [exact Hk|].
  destruct (p c && hi_allows hi); [|exact Hk].
  destruct (rep_greedy p 0 (hi_pred hi) s k); [done|exact Hk].
Qed.

(** An unbounded greedy repetition gets through a run of the class when the
    rest of the pattern matches after the run. *)
Lemma rep_greedy_run {R} p lo num tail (k : string → option R) :
  all_chars p num = true → lo ≤ String.length num → is_Some (k tail) →
  is_Some (rep_greedy p lo None (num +:+ tail) k).
Proof.
  revert lo. induction num as [|c num IH]; intros lo Hall Hlo Hk.
  - simpl in Hlo. assert (lo = 0) as -> by lia. by apply rep_greedy_zero.
  - simpl in Hall. apply andb_true_iff in Hall as [Hc Hall].
    change (String c num +:+ tail) with (String c (num +:+ tail)).
    simpl. rewrite Hc. simpl.
    destruct (IH (pred lo) Hall) as [x ->]; [simpl in Hlo; lia|exact Hk|done].
Qed.

Lemma built_line_matches pre num post :
  num ≠ "" → all_chars d_or_dot num = true →
  matches (re_search RE_BUILT
    (pre +:+ "Documentation built in " +:+ num +:+ " seconds" +:+ post)) = true.
Proof.
  intros Hne Hall. apply matches_Some, re_search_app.
  unfold re_match, RE_BUILT, cat. simpl foldr. cbn [rmatch].
  rewrite strip_prefix_app. unfold plus.
  apply rep_greedy_run; [exact Hall|destruct num; [done|simpl; lia]|].
  rewrite strip_prefix_app. done.
Qed.

(** A repetition that succeeds has called the rest of the pattern. *)
Lemma rep_greedy_Some {R} p lo hi s (k : string → option R) x :
  rep_greedy p lo hi s k = Some x → ∃ s', k s' = Some x.
Proof.
  revert lo hi. induction s as [|c s IH]; intros lo hi; simpl.
  - destruct (lo =? 0)%nat; [eauto|discriminate].
  - destruct (p c && hi_allows hi).
    + destruct (rep_greedy p (pred lo) (hi_pred hi) s k) eqn:E.
      * intros [= ->]. eauto.
      * destruct (lo =? 0)%nat; [eauto|discriminate].
    + destruct (lo =? 0)%nat; [eauto|discriminate].
Qed.

Lemma rep_lazy_Some {R} p lo hi s (k : string → option R) x :
  rep_lazy p lo hi s k = Some x → ∃ s', k s' = Some x.
Proof.
  revert lo hi. induction s as [|c s IH]; intros lo hi; simpl.
  - destruct (lo =? 0)%nat; [|discriminate]. destruct (k "") eqn:E; [|discriminate].
    intros [= ->]. eauto.
  - destruct (lo =? 0)%nat.
    + destruct (k (String c s)) eqn:E; [intros [= ->]; eauto|].
      destruct (p c && hi_allows hi); [eauto|discriminate].
    + destruct (p c && hi_allows hi); [eauto|discriminate].
Qed.

(** A successful match has reached its continuation with the groups it had
    and those the pattern defines. *)
Lemma rmatch_groups {R} r s cs (k : string → caps → option R) x :
  rmatch r s cs k = Some x →
  ∃ s' cs', k s' cs' = Some x
    ∧ (∀ n, is_Some (lookup_group n cs) → is_Some (lookup_group n cs'))
    ∧ (∀ n, defines n r = true → is_Some (lookup_group n cs')).
Proof.
  revert s cs k. induction r as [l|p|g lo hi p|r1 IH1 r2 IH2|r1 IH1 r2 IH2|m r1 IH1];
    intros s cs k; simpl.
  - destruct (strip_prefix l s) as [s'|]; [|discriminate]. intros H.
    exists s', cs. split; [exact H|]. split; [auto|discriminate].
  - destruct s as [|c s]; [discriminate|]. destruct (p c); [|discriminate].
    intros H. exists s, cs. split; [exact H|]. split; [auto|discriminate].
  - destruct g; [intros (s' & H)%rep_greedy_Some|intros (s' & H)%rep_lazy_Some];
      exists s', cs; (split; [exact H|]); (split; [auto|discriminate]).
  - intros (s1 & cs1 & H1 & Hk1 & Hd1)%IH1.
    apply IH2 in H1 as (s2 & cs2 & H2 & Hk2 & Hd2).
    exists s2, cs2. split; [exact H2|]. split; [eauto|].
    intros n [H|H]%orb_true_iff; eauto.
  - destruct (rmatch r1 s cs k) eqn:E.
    + intros [= ->]. apply IH1 in E as (s1 & cs1 & H1 & Hk1 & Hd1).
      exists s1, cs1. split; [exact H1|]. split; [exact Hk1|].
      intros n [H _]%andb_true_iff. eauto.
    + intros (s2 & cs2 & H2 & Hk2 & Hd2)%IH2.
      exists s2, cs2. split; [exact H2|]. split; [exact Hk2|].
      intros n [_ H]%andb_true_iff. eauto.
  - intros (s1 & cs1 & H1 & Hk1 & Hd1)%IH1.
    eexists _, _. split; [exact H1|]. split.
    + intros n Hn. simpl. destruct (m =? n)%nat; [done|eauto].
    + intros n Hn. simpl. destruct (m =? n)%nat eqn:E; [done|].
      simpl in Hn. eauto.
Qed.

Lemma re_match_defines r s m n :
  re_match r s = Some m → defines n r = true → is_Some (group n m).
Proof.
  unfold re_match. intros H Hn.
  apply (rmatch_groups r s []) in H as (s' & cs' & [= <-] & _ & Hd).
  by apply Hd.
Qed.

(** The groups a pattern defines are set in every match object of it. *)
Lemma re_search_defines r s m n :
  re_search r s = Some m → defines n r = true → is_Some (group n m).
Proof.
  induction s as [|c s IH]; simpl.
  - destruct (re_match r "") eqn:E; [|discriminate].
    intros [= ->]. by apply (re_match_defines r "").
  - destruct (re_match r (String c s)) eqn:E.
    + intros [= ->]. by apply (re_match_defines r (String c s)).
    + exact IH.
Qed.

End StringFacts.

(** ** The boundary classifier *)

Section Boundary.

Lemma detect_built line prev :
  matches (re_search RE_BUILT line) = true →
  detect_chunk_boundary line prev = BUILD_COMPLETE.
Proof. intros H. unfold detect_chunk_boundary. rewrite H. reflexivity. Qed.

(** C4. The build-complete test comes first: a line in which the
    build-complete pattern is found classifies as [BUILD_COMPLETE] whatever
    else it contains and whatever the previous line is.  The crafted line of
    the specification holds the build-complete phrase, both rebuild phrases
    and the server phrase; without the build-complete phrase the same text
    classifies as [SERVER_STARTED] or [REBUILD_STARTED]. *)
Theorem build_complete_takes_precedence :
  (∀ line prev,
     matches (re_search RE_BUILT line) = true →
     detect_chunk_boundary line prev = BUILD_COMPLETE)
  ∧ (let crafted :=
       "INFO -  Documentation built in 1.00 seconds, Detected file changes, Reloading docs, Serving on http://127.0.0.1:8000/" in
     contains "Detected file changes" crafted = true
     ∧ contains "Reloading docs" crafted = true
     ∧ matches (re_search RE_SERVING crafted) = true
     ∧ ∀ prev, detect_chunk_boundary crafted prev = BUILD_COMPLETE)
  ∧ detect_chunk_boundary "INFO -  Detected file changes, Reloading docs" None
    = REBUILD_STARTED
  ∧ detect_chunk_boundary
      "INFO -  Detected file changes, Serving on http://127.0.0.1:8000/" None
    = SERVER_STARTED.
Proof.
  split; [exact detect_built|].
  split; [|split; vm_compute; reflexivity].
  cbv zeta. repeat split; try (vm_compute; reflexivity).
Qed.

Lemma build_complete_takes_precedence_witness :
  let line := "Detected file changes: Documentation built in 0.5 seconds" in
  contains "Detected file changes" line = true
  ∧ detect_chunk_boundary line (Some "") = BUILD_COMPLETE.
Proof.
  split; [vm_compute; reflexivity|].
  apply (proj1 build_complete_takes_precedence). vm_compute. reflexivity.
Defined.

(** C9, as the specification states it, fails: the pattern is matched case
    sensitively, and the lower-case sentence is no boundary at all. *)
Lemma build_complete_lower_case_counterexample :
  detect_chunk_boundary "documentation built in 1.00 seconds" None = NONE
  ∧ detect_chunk_boundary "documentation built in 1.00 seconds" None ≠ BUILD_COMPLETE.
Proof. split; [vm_compute; reflexivity|vm_compute; discriminate]. Qed.

(** C9, amended.  A line that contains, anywhere, the words
    [Documentation built in], capitalised so, one or more digits and dots,
    and [ seconds], classifies as [BUILD_COMPLETE]; the text around it and
    the previous line are free. *)
Theorem build_complete_any_context pre num post prev :
  num ≠ "" → all_chars d_or_dot num = true →
  detect_chunk_boundary
    (pre +:+ "Documentation built in " +:+ num +:+ " seconds" +:+ post) prev
  = BUILD_COMPLETE.
Proof. intros Hne Hall. apply detect_built. by apply built_line_matches. Qed.

Lemma build_complete_any_context_witness :
  detect_chunk_boundary "INFO -  Documentation built in 78.99 seconds" None
  = BUILD_COMPLETE.
Proof.
  apply (build_complete_any_context "INFO -  " "78.99" "" None).
  - discriminate.
  - vm_compute. reflexivity.
Defined.

End Boundary.

(** ** The test suite of the repository, evaluated on the embedding *)

Section RepositoryTests.

(** test_detects_error_block_end_after_blank and its neighbours *)
Example test_detect_chunk_boundary :
  detect_chunk_boundary "INFO -  Documentation built in 78.99 seconds" None = BUILD_COMPLETE
  ∧ detect_chunk_boundary "INFO -  Serving on http://127.0.0.1:8000/" None = SERVER_STARTED
  ∧ detect_chunk_boundary "INFO -  Detected file changes" None = REBUILD_STARTED
  ∧ detect_chunk_boundary "INFO -  Reloading docs on file change" None = REBUILD_STARTED
  ∧ detect_chunk_boundary "INFO -  Building documentation..." None = NONE
  ∧ detect_chunk_boundary "INFO -  Building documentation" (Some "") = ERROR_BLOCK_END.
Proof. repeat split; vm_compute; reflexivity. Qed.

(** test_extracts_all_info *)
Example test_extract_build_info :
  extract_build_info
    ["INFO -  Building documentation to directory: /path/to/site";
     "INFO -  Serving on http://127.0.0.1:8000/";
     "INFO -  Documentation built in 1.23 seconds"]
  = Ok {| server_url := Some "http://127.0.0.1:8000/";
          build_dir := Some "/path/to/site";
          build_time := Some "1.23" |}.
Proof. vm_compute. reflexivity. Qed.

(** test_extracts_session_and_line_info, test_extracts_file_from_verbose_mode *)
Example test_parse_markdown_exec_issue :
  parse_markdown_exec_issue exec_block 1 WARNING
  = Ok (Some {| level := WARNING;
                source := "markdown_exec";
                message := "ValueError: error";
                file := Some ("test.md" +:+ location_sep +:+ "session 'mytest'"
                              +:+ location_sep +:+ "line 3");
                code := Some (join newline
                                ["  x = 1"; "  y = 2"; "  raise ValueError('error')"]);
                output := Some (join newline
                                  ["  Traceback (most recent call last):";
                                   "    File " +:+ quote
                                     +:+ "<code block: session mytest; n1>" +:+ quote
                                     +:+ ", line 3, in <module>";
                                   "      raise ValueError('error')";
                                   "  ValueError: error"]) |},
        16).
Proof. vm_compute. reflexivity. Qed.

(** test_parses_broken_link_warning, test_strips_stderr_prefix,
    test_strips_timestamp_prefix, test_no_warnings_or_errors *)
Example test_parse_mkdocs_output :
  parse_mkdocs_output
    ["WARNING -  Doc file 'index.md' contains a link 'missing.md', but the target is not found among documentation files."]
  = Ok [{| level := WARNING; source := "mkdocs";
           message := "Doc file 'index.md' contains a link 'missing.md', but the target is not found among documentation files.";
           file := Some "index.md"; code := None; output := None |}]
  ∧ parse_mkdocs_output ["[stderr] WARNING -  Some warning"]
    = Ok [{| level := WARNING; source := "mkdocs"; message := "Some warning";
             file := None; code := None; output := None |}]
  ∧ parse_mkdocs_output
      ["2024-01-01 12:00:00,000 - mkdocs.structure - WARNING - Some warning"]
    = Ok [{| level := WARNING; source := "mkdocs";
             message := "mkdocs.structure - WARNING - Some warning";
             file := None; code := None; output := None |}]
  ∧ parse_mkdocs_output
      ["INFO -  Cleaning site directory";
       "INFO -  Building documentation to directory: /path/to/site";
       "INFO -  Documentation built in 0.12 seconds"]
    = Ok []
  ∧ (∃ issue, parse_mkdocs_output exec_block = Ok [issue]).
Proof.
  repeat split; try (vm_compute; reflexivity).
  eexists. vm_compute. reflexivity.
Qed.

(** The separator of line 282, byte for byte. *)
Example location_sep_bytes :
  PyStr.code <$> list_ascii_of_string location_sep
  = [32; 195; 162; 226; 128; 160; 226; 128; 153; 32]%N.
Proof. vm_compute. reflexivity. Qed.

End RepositoryTests.

(** ** Indexing and the loops *)

Section Loops.
Implicit Types (lines : list string) (i start : nat).

Lemma py_index_nat {A} (l : list A) i x :
  l !! i = Some x → py_index l (Z.of_nat i) = Ok x.
Proof.
  intros H. unfold py_index. cbv zeta.
  assert ((0 <=? Z.of_nat i)%Z = true) as E by (apply Z.leb_le; lia).
  rewrite E. cbv iota. rewrite E, Nat2Z.id, H. reflexivity.
Qed.

Lemma py_index_lt {A} (l : list A) i :
  i < length l → ∃ x, l !! i = Some x ∧ py_index l (Z.of_nat i) = Ok x.
Proof.
  intros H. destruct (lookup_lt_is_Some_2 l i H) as [x Hx].
  exists x. split; [exact Hx|by apply py_index_nat].
Qed.

(** The backward loop looks at indices between 0 and [start - 1] only. *)
Lemma range_down_bounds (s j : Z) :
  j ∈ range_down (s - 1) (Z.max (-1) (s - 50)) → (0 ≤ j < s)%Z.
Proof.
  unfold range_down. intros (k & -> & Hk)%list_elem_of_fmap.
  apply elem_of_seq in Hk. lia.
Qed.

(** The groups the backward loop reads are set: no hint raises. *)
Lemma file_hint_ok prev_line : ∃ hint, file_hint prev_line = Ok hint.
Proof.
  unfold file_hint.
  destruct (re_search RE_READING prev_line); [by eexists|].
  destruct (re_search RE_BREADCRUMB prev_line) as [m|] eqn:E.
  - destruct (re_search_defines _ _ _ 2 E eq_refl) as [v ->]. by eexists.
  - destruct (re_search RE_DOC_FILE prev_line); by eexists.
Qed.

Lemma find_file_ok lines (js : list Z) :
  (∀ j, j ∈ js → (0 ≤ j < Z.of_nat (length lines))%Z) →
  ∃ f, find_file lines js = Ok f.
Proof.
  induction js as [|j js IH]; intros Hjs; simpl; [by eexists|].
  assert (0 ≤ j < Z.of_nat (length lines))%Z as Hj by (apply Hjs; left).
  destruct (py_index_lt lines (Z.to_nat j)) as (x & _ & Hx); [lia|].
  rewrite Z2Nat.id in Hx by lia. rewrite Hx. simpl.
  destruct (file_hint_ok x) as [[f|] ->]; simpl; [by eexists|].
  apply IH. intros j' Hj'. apply Hjs. by right.
Qed.

(** With more fuel than lines left, the forward loop is [scan_list] on the
    lines from [i] on. *)
Lemma scan_loop_list fuel lines i st :
  length lines - i < fuel →
  scan_loop fuel lines i st = Ok (scan_list (drop i lines) i st).
Proof.
  revert i st. induction fuel as [|fuel IH]; intros i st Hf; [lia|].
  simpl. destruct (Nat.ltb_spec i (length lines)) as [Hi|Hi].
  - destruct (py_index_lt lines i Hi) as (x & Hl & ->). simpl.
    rewrite (drop_S _ _ _ Hl). simpl.
    destruct (scan_step st x); [|reflexivity].
    apply IH. lia.
  - rewrite drop_ge by lia. reflexivity.
Qed.

Lemma scan_list_index rest i st : i ≤ (scan_list rest i st).2.
Proof.
  revert i st. induction rest as [|l rest IH]; intros i st; simpl; [lia|].
  destruct (scan_step st l) as [st'|]; simpl; [|lia].
  specialize (IH (S i) st'). lia.
Qed.

Lemma find_error_msg_cases l :
  find_error_msg l = "Code execution failed" ∨ is_error_line (find_error_msg l) = true.
Proof.
  induction l as [|x l IH]; simpl; [by left|].
  destruct (is_error_line (strip x)) eqn:E; [by right|exact IH].
Qed.

Lemma find_error_msg_nonempty l : find_error_msg l ≠ "".
Proof.
  destruct (find_error_msg_cases l) as [->|H]; [discriminate|].
  intros E. rewrite E in H. discriminate.
Qed.

(** What [parse_markdown_exec_issue] returns, in terms of [scan_list]. *)
Lemma parse_markdown_exec_issue_ok lines start lvl :
  start < length lines →
  ∃ issue,
    parse_markdown_exec_issue lines start lvl
    = Ok (Some issue, (scan_list (drop (start + 1) lines) (start + 1) scan_init).2)
    ∧ level issue = lvl ∧ source issue = "markdown_exec"
    ∧ message issue =
        find_error_msg
          (reverse (output_lines (scan_list (drop (start + 1) lines) (start + 1) scan_init).1))
    ∧ code issue =
        join_or_none newline
          (code_lines (scan_list (drop (start + 1) lines) (start + 1) scan_init).1)
    ∧ output issue =
        join_or_none newline
          (output_lines (scan_list (drop (start + 1) lines) (start + 1) scan_init).1).
Proof.
  intros Hs. unfold parse_markdown_exec_issue.
  destruct (find_file_ok lines
    (range_down (Z.of_nat start - 1) (Z.max (-1) (Z.of_nat start - 50)))) as [f ->].
  { intros j Hj%range_down_bounds. lia. }
  cbn [mbind res_bind]. rewrite scan_loop_list by lia. simpl.
  destruct (scan_list _ _ _) as [st i]. simpl.
  eexists. split; [reflexivity|]. done.
Qed.

Lemma parse_loop_ok fuel lines i skip issues :
  length lines - i < fuel → ∃ r, parse_loop fuel lines i skip issues = Ok r.
Proof.
  revert i skip issues. induction fuel as [|fuel IH]; intros i skip issues Hf; [lia|].
  simpl. destruct (Nat.ltb_spec i (length lines)) as [Hi|Hi]; [|by eexists].
  destruct (Z.of_nat i <? skip)%Z; [apply IH; lia|].
  destruct (py_index_lt lines i Hi) as (x & Hl & ->). simpl.
  destruct (contains "WARNING" x || contains "ERROR" x); [|apply IH; lia].
  destruct (contains "markdown_exec" x); [|apply IH; lia].
  destruct (parse_markdown_exec_issue_ok lines i
              (if contains "ERROR" x then ERROR else WARNING) Hi) as (issue & -> & _).
  simpl. apply IH.
  pose proof (scan_list_index (drop (i + 1) lines) (i + 1) scan_init). lia.
Qed.

End Loops.

(** ** Totality *)

Section Totality.

Lemma extract_step_ok info line : ∃ info', extract_step info line = Ok info'.
Proof.
  unfold extract_step. cbv zeta.
  destruct (re_search RE_BUILD_DIR line) as [m|] eqn:E; [|by eexists].
  destruct (re_search_defines _ _ _ 1 E eq_refl) as [v ->]. by eexists.
Qed.

Lemma extract_loop_ok info lines : ∃ info', extract_loop info lines = Ok info'.
Proof.
  revert info. induction lines as [|x lines IH]; intros info; simpl; [by eexists|].
  destruct (extract_step_ok info x) as [info' ->]. apply IH.
Qed.

(** C8. The classifier functions return on every input.  The boundary
    classifier yields one of the five labels for every line and every
    previous line, present or not.  [parse_mkdocs_output] ends with a list
    of issues on every list of lines: no index is out of range and the fuel
    its loops are given is enough, and no group is used that a match did
    not set.  [extract_build_info] ends with a [BuildInfo] likewise, empty
    on the empty list. *)
Theorem classifier_never_raises :
  (∀ line prev,
     detect_chunk_boundary line prev
     ∈ [BUILD_COMPLETE; SERVER_STARTED; REBUILD_STARTED; ERROR_BLOCK_END; NONE])
  ∧ (∀ lines, ∃ issues, parse_mkdocs_output lines = Ok issues)
  ∧ (∀ lines, ∃ info, extract_build_info lines = Ok info)
  ∧ parse_mkdocs_output [] = Ok []
  ∧ extract_build_info []
    = Ok {| server_url := None; build_dir := None; build_time := None |}.
Proof.
  repeat split.
  - intros line prev. destruct (detect_chunk_boundary line prev); set_solver.
  - intros lines. apply parse_loop_ok. lia.
  - intros lines. apply extract_loop_ok.
Qed.

(** C10. On every list of lines and every start index inside it,
    [parse_markdown_exec_issue] returns an issue, never [None]: its source
    is [markdown_exec], its level the level given, its message non-empty
    (the placeholder, or a line that passed the error-line test), and the
    end index is beyond the start index. *)
Theorem parse_markdown_exec_issue_never_none lines start lvl :
  start < length lines →
  ∃ issue e,
    parse_markdown_exec_issue lines start lvl = Ok (Some issue, e)
    ∧ source issue = "markdown_exec"
    ∧ level issue = lvl
    ∧ message issue ≠ ""
    ∧ (message issue = "Code execution failed" ∨ is_error_line (message issue) = true)
    ∧ start < e.
Proof.
  intros Hs.
  destruct (parse_markdown_exec_issue_ok lines start lvl Hs)
    as (issue & E & Hl & Hsrc & Hm & _).
  eexists issue, _. split; [exact E|]. rewrite Hm.
  repeat split; [exact Hsrc|exact Hl|apply find_error_msg_nonempty
                |apply find_error_msg_cases|].
  pose proof (scan_list_index (drop (start + 1) lines) (start + 1) scan_init). lia.
Qed.

Lemma parse_markdown_exec_issue_never_none_witness :
  ∃ issue e,
    parse_markdown_exec_issue ["ERROR -  markdown_exec: failed"] 0 ERROR
    = Ok (Some issue, e)
    ∧ source issue = "markdown_exec"
    ∧ level issue = ERROR
    ∧ message issue ≠ ""
    ∧ (message issue = "Code execution failed" ∨ is_error_line (message issue) = true)
    ∧ 0 < e.
Proof.
  apply (parse_markdown_exec_issue_never_none ["ERROR -  markdown_exec: failed"] 0 ERROR).
  simpl. lia.
Defined.

End Totality.

(** ** Build information *)

Section BuildInfoFacts.

Lemma overwrite_none f acc lines :
  Forall (λ y, f y = None) lines → overwrite f acc lines = acc.
Proof.
  intros H. revert acc. induction H as [|x l Hx _ IH]; intros acc; [reflexivity|].
  unfold overwrite in *. simpl. rewrite Hx. apply IH.
Qed.

Lemma overwrite_last f lines : last_write_wins f lines (overwrite f None lines).
Proof.
  split.
  - intros pre x post v -> Hx Hpost. unfold overwrite.
    rewrite foldl_app. simpl. rewrite Hx.
    by apply (overwrite_none f (Some v) post).
  - apply overwrite_none.
Qed.

(** A line says nothing about a field exactly when the pattern of the field
    is not found in it. *)
Lemma field_of_None line :
  (server_url_of line = None ↔ re_search RE_SERVING_URL line = None)
  ∧ (build_time_of line = None ↔ re_search RE_BUILT_TIME line = None)
  ∧ (build_dir_of line = None ↔ re_search RE_BUILD_DIR line = None).
Proof.
  unfold server_url_of, build_time_of, build_dir_of.
  repeat split; try (by intros ->);
    (destruct (re_search _ line) as [m|] eqn:E; [|done]);
    destruct (re_search_defines _ _ _ 1 E eq_refl) as [v Hv];
    simpl; rewrite Hv; discriminate.
Qed.

Lemma extract_step_fields info line :
  ∃ info', extract_step info line = Ok info'
    ∧ server_url info'
      = match server_url_of line with Some v => Some v | None => server_url info end
    ∧ build_time info'
      = match build_time_of line with Some v => Some v | None => build_time info end
    ∧ build_dir info'
      = match build_dir_of line with Some v => Some v | None => build_dir info end.
Proof.
  unfold extract_step, server_url_of, build_time_of, build_dir_of. cbv zeta.
  destruct (re_search RE_SERVING_URL line) as [m1|] eqn:E1;
    [destruct (re_search_defines _ _ _ 1 E1 eq_refl) as [v1 H1]|];
    (destruct (re_search RE_BUILT_TIME line) as [m2|] eqn:E2;
      [destruct (re_search_defines _ _ _ 1 E2 eq_refl) as [v2 H2]|]);
    (destruct (re_search RE_BUILD_DIR line) as [m3|] eqn:E3;
      [destruct (re_search_defines _ _ _ 1 E3 eq_refl) as [v3 H3]|]);
    simpl; rewrite ?H1, ?H2, ?H3; simpl; eexists; (split; [reflexivity|]); done.
Qed.

Lemma extract_fold info lines :
  ∃ info', extract_loop info lines = Ok info'
    ∧ server_url info' = overwrite server_url_of (server_url info) lines
    ∧ build_time info' = overwrite build_time_of (build_time info) lines
    ∧ build_dir info' = overwrite build_dir_of (build_dir info) lines.
Proof.
  revert info. induction lines as [|x lines IH]; intros info; simpl; [by eexists|].
  destruct (extract_step_fields info x) as (info1 & -> & H1 & H2 & H3). simpl.
  destruct (IH info1) as (info2 & E & A & B & C).
  exists info2. split; [exact E|]. rewrite A, B, C, H1, H2, H3. done.
Qed.

(** C5. [extract_build_info] is last-write-wins: each of the three fields is
    what its pattern extracts from the last line in which the pattern is
    found, and [None] when it is found in no line (the build directory is
    the stripped group).  Of two lines that both state a build time, the
    second gives the field. *)
Theorem extract_build_info_last_write_wins lines :
  ∃ info,
    extract_build_info lines = Ok info
    ∧ last_write_wins server_url_of lines (server_url info)
    ∧ last_write_wins build_dir_of lines (build_dir info)
    ∧ last_write_wins build_time_of lines (build_time info)
    ∧ (∀ l1 l2 t1 t2,
         lines = [l1; l2] → build_time_of l1 = Some t1 → build_time_of l2 = Some t2 →
         build_time info = Some t2)
    ∧ (∀ line,
         (server_url_of line = None ↔ re_search RE_SERVING_URL line = None)
         ∧ (build_time_of line = None ↔ re_search RE_BUILT_TIME line = None)
         ∧ (build_dir_of line = None ↔ re_search RE_BUILD_DIR line = None)).
Proof.
  unfold extract_build_info.
  destruct (extract_fold
    {| server_url := None; build_dir := None; build_time := None |} lines)
    as (info & E & A & B & C). simpl in A, B, C.
  exists info. split; [exact E|]. rewrite A, B, C.
  repeat split; try (by apply overwrite_last); try (by apply overwrite_none);
    try (by apply field_of_None).
  intros l1 l2 t1 t2 -> H1 H2. unfold overwrite. simpl. by rewrite H1, H2.
Qed.

Lemma extract_build_info_last_write_wins_witness :
  ∃ info,
    extract_build_info
      ["INFO -  Documentation built in 1.00 seconds";
       "INFO -  Documentation built in 2.50 seconds"] = Ok info
    ∧ build_time info = Some "2.50".
Proof.
  destruct (extract_build_info_last_write_wins
     ["INFO -  Documentation built in 1.00 seconds";
      "INFO -  Documentation built in 2.50 seconds"])
    as (info & E & _ & _ & _ & H & _).
  exists info. split; [exact E|].
  apply (H "INFO -  Documentation built in 1.00 seconds"
           "INFO -  Documentation built in 2.50 seconds" "1.00" "2.50");
    vm_compute; reflexivity.
Defined.

End BuildInfoFacts.

(** ** The block reconstructor *)

Section Scan.

Lemma scan_step_content st l :
  is_content l = true →
  ∃ st', scan_step st l = Some st'
    ∧ in_code st' = in_code st ∧ in_output st' = in_output st
    ∧ code_lines st' = code_lines st ++ (if in_code st then kept [l] else [])
    ∧ output_lines st' =
        output_lines st ++ (if negb (in_code st) && in_output st then kept [l] else []).
Proof.
  intros Hc. unfold is_content in Hc.
  apply andb_true_iff in Hc as [Hc H3]. apply andb_true_iff in Hc as [H1 H2].
  apply negb_true_iff in H1, H2, H3.
  unfold scan_step, kept. cbv zeta. rewrite H1, H2, H3.
  simpl List.filter. unfold nonblank.
  destruct (in_code st) eqn:Ec, (in_output st) eqn:Eo, (truthy (strip l)) eqn:Et;
    simpl; try destruct (re_search RE_SESSION (strip l));
    eexists; (split; [reflexivity|]); simpl; rewrite ?Ec, ?Eo, ?app_nil_r; done.
Qed.

Lemma kept_cons l ls : kept (l :: ls) = kept [l] ++ kept ls.
Proof. unfold kept. simpl. destruct (nonblank l); reflexivity. Qed.

(** A run of content lines is consumed whole; the lines kept go to the
    section the loop is in. *)
Lemma scan_list_content seg rest i st :
  Forall (λ l, is_content l = true) seg →
  ∃ st', scan_list (seg ++ rest) i st = scan_list rest (i + length seg) st'
    ∧ in_code st' = in_code st ∧ in_output st' = in_output st
    ∧ code_lines st' = code_lines st ++ (if in_code st then kept seg else [])
    ∧ output_lines st' =
        output_lines st ++ (if negb (in_code st) && in_output st then kept seg else []).
Proof.
  intros Hseg. revert i st.
  induction Hseg as [|l seg Hl _ IH]; intros i st.
  - exists st. simpl. rewrite Nat.add_0_r.
    destruct (in_code st), (in_output st); simpl; rewrite ?app_nil_r; done.
  - destruct (scan_step_content st l Hl) as (st1 & E1 & Hc1 & Ho1 & Hcl1 & Hol1).
    destruct (IH (S i) st1) as (st2 & E2 & Hc2 & Ho2 & Hcl2 & Hol2).
    exists st2. simpl. rewrite E1, E2.
    replace (S i + length seg) with (i + S (length seg)) by lia.
    split; [reflexivity|]. rewrite Hc2, Ho2, Hcl2, Hol2, Hc1, Ho1, Hcl1, Hol1.
    rewrite (kept_cons l seg).
    destruct (in_code st), (in_output st); simpl;
      rewrite <- ?app_assoc, ?app_nil_r; done.
Qed.

Lemma scan_list_code_marker cb rest i st :
  strip cb = "Code block is:" →
  scan_list (cb :: rest) i st
  = scan_list rest (S i)
      {| in_code := true; in_output := false;
         code_lines := code_lines st; output_lines := output_lines st;
         session_info := session_info st; line_number := line_number st |}.
Proof. intros H. simpl. unfold scan_step. cbv zeta. rewrite H. reflexivity. Qed.

Lemma scan_list_output_marker ob rest i st :
  strip ob = "Output is:" →
  scan_list (ob :: rest) i st
  = scan_list rest (S i)
      {| in_code := false; in_output := true;
         code_lines := code_lines st; output_lines := output_lines st;
         session_info := session_info st; line_number := line_number st |}.
Proof. intros H. simpl. unfold scan_step. cbv zeta. rewrite H. reflexivity. Qed.

(** A top-level log line ends the scan and is not consumed. *)
Lemma scan_list_stop top rest i st :
  is_stop (strip top) = true → scan_list (top :: rest) i st = (st, i).
Proof.
  intros Hs. simpl. unfold scan_step. cbv zeta.
  rewrite !bool_decide_eq_false_2, Hs; [reflexivity| |];
    intros E; rewrite E in Hs; vm_compute in Hs; discriminate.
Qed.

(** C2. A record made of a header at index [length pre], content lines, a
    [Code block is:] marker, the code lines, an [Output is:] marker, the
    output lines and then a top-level log line [top] (one that passes one of
    the three stop tests): the issue's code is the non-blank code lines and
    its output the non-blank output lines, each right-stripped and joined by
    newlines ([None] when there is none), and the end index is the index of
    [top], which is left to the caller. *)
Theorem record_boundary_precision pre header gap cb code_sec ob out_sec top rest lvl :
  Forall (λ l, is_content l = true) gap →
  strip cb = "Code block is:" →
  Forall (λ l, is_content l = true) code_sec →
  strip ob = "Output is:" →
  Forall (λ l, is_content l = true) out_sec →
  is_stop (strip top) = true →
  let lines := pre ++ header :: gap ++ cb :: code_sec ++ ob :: out_sec ++ top :: rest in
  let end_idx := length pre + 1 + length gap + 1 + length code_sec + 1 + length out_sec in
  ∃ issue,
    parse_markdown_exec_issue lines (length pre) lvl = Ok (Some issue, end_idx)
    ∧ code issue = join_or_none newline (kept code_sec)
    ∧ output issue = join_or_none newline (kept out_sec)
    ∧ lines !! end_idx = Some top.
Proof.
  intros Hgap Hcb Hcode Hob Hout Htop lines end_idx.
  destruct (parse_markdown_exec_issue_ok lines (length pre) lvl)
    as (issue & E & _ & _ & _ & Hc & Ho).
  { subst lines. rewrite length_app. simpl. lia. }
  assert (drop (length pre + 1) lines
          = gap ++ cb :: code_sec ++ ob :: out_sec ++ top :: rest) as Hd.
  { subst lines. rewrite (cons_middle header), app_assoc.
    replace (length pre + 1) with (length (pre ++ [header]))
      by (rewrite length_app; reflexivity).
    apply drop_app_length. }
  rewrite Hd in E, Hc, Ho.
  destruct (scan_list_content gap (cb :: code_sec ++ ob :: out_sec ++ top :: rest)
              (length pre + 1) scan_init Hgap) as (s1 & E1 & C1 & O1 & CL1 & OL1).
  rewrite E1, (scan_list_code_marker _ _ _ _ Hcb) in E, Hc, Ho.
  destruct (scan_list_content code_sec (ob :: out_sec ++ top :: rest)
              (S (length pre + 1 + length gap))
              {| in_code := true; in_output := false;
                 code_lines := code_lines s1; output_lines := output_lines s1;
                 session_info := session_info s1; line_number := line_number s1 |}
              Hcode) as (s2 & E2 & C2 & O2 & CL2 & OL2).
  rewrite E2, (scan_list_output_marker _ _ _ _ Hob) in E, Hc, Ho.
  destruct (scan_list_content out_sec (top :: rest)
              (S (S (length pre + 1 + length gap) + length code_sec))
              {| in_code := false; in_output := true;
                 code_lines := code_lines s2; output_lines := output_lines s2;
                 session_info := session_info s2; line_number := line_number s2 |}
              Hout) as (s3 & E3 & C3 & O3 & CL3 & OL3).
  rewrite E3, (scan_list_stop _ _ _ _ Htop) in E, Hc, Ho.
  simpl in *. rewrite CL1, OL1 in *. simpl in *.
  rewrite CL3, app_nil_r, CL2 in Hc. rewrite OL3, OL2 in Ho. simpl in Ho.
  exists issue. repeat split; [|exact Hc|exact Ho|].
  - rewrite E. do 3 f_equal. subst end_idx. lia.
  - subst lines end_idx.
    rewrite (cons_middle header), (cons_middle cb), (cons_middle ob), !app_assoc.
    rewrite <- !app_assoc, !app_assoc.
    rewrite list_lookup_middle; [reflexivity|].
    rewrite !length_app. simpl. lia.
Qed.

Lemma record_boundary_precision_witness :
  ∃ issue,
    parse_markdown_exec_issue
      ["WARNING -  markdown_exec: Execution of python code block exited with errors";
       ""; "Code block is:"; ""; "  print('hello')  "; ""; "Output is:"; "";
       "  some output"; "";
       "INFO -  Building documentation to directory: /path"; "INFO -  More info"]
      0 WARNING
    = Ok (Some issue, 10)
    ∧ code issue = Some "  print('hello')"
    ∧ output issue = Some "  some output"
    ∧ ["WARNING -  markdown_exec: Execution of python code block exited with errors";
       ""; "Code block is:"; ""; "  print('hello')  "; ""; "Output is:"; "";
       "  some output"; "";
       "INFO -  Building documentation to directory: /path"; "INFO -  More info"] !! 10
      = Some "INFO -  Building documentation to directory: /path".
Proof.
  apply (record_boundary_precision []
    "WARNING -  markdown_exec: Execution of python code block exited with errors"
    [""] "Code block is:" [""; "  print('hello')  "; ""] "Output is:"
    [""; "  some output"; ""]
    "INFO -  Building documentation to directory: /path" ["INFO -  More info"] WARNING);
    repeat constructor.
Defined.

End Scan.

(** ** The message of a reconstructed issue *)

Section Message.

Lemma find_error_msg_skip l1 l2 :
  Forall (λ y, is_error_line (strip y) = false) l1 →
  find_error_msg (l1 ++ l2) = find_error_msg l2.
Proof.
  induction 1 as [|x l1 Hx _ IH]; [reflexivity|].
  simpl. rewrite Hx. exact IH.
Qed.

Lemma find_error_msg_selects out : selects_message out (find_error_msg (reverse out)).
Proof.
  split.
  - intros pre x post -> Hx Hpost.
    rewrite reverse_app, reverse_cons, <- app_assoc.
    rewrite find_error_msg_skip by (by apply Forall_reverse).
    simpl. rewrite Hx. reflexivity.
  - intros Hall. rewrite <- (app_nil_r (reverse out)).
    rewrite find_error_msg_skip by (by apply Forall_reverse). reflexivity.
Qed.

(** C3, as the specification states it, fails on a warning class: the only
    output line names a warning class followed by a colon and is not a
    [File] line, and the message is the placeholder. *)
Lemma warning_class_counterexample :
  let lines :=
    ["WARNING -  markdown_exec: Execution of python code block exited with errors";
     "Output is:"; "  UserWarning: this call is deprecated"; "INFO -  Done"] in
  ∃ issue,
    parse_markdown_exec_issue lines 0 WARNING = Ok (Some issue, 3)
    ∧ output issue = Some "  UserWarning: this call is deprecated"
    ∧ contains "Warning:" (strip "  UserWarning: this call is deprecated") = true
    ∧ startswith "File " (strip "  UserWarning: this call is deprecated") = false
    ∧ message issue = "Code execution failed"
    ∧ message issue ≠ "UserWarning: this call is deprecated".
Proof.
  cbv zeta. eexists. split; [vm_compute; reflexivity|].
  repeat split; try (vm_compute; reflexivity). vm_compute. discriminate.
Qed.

(** C3, amended.  The message of the issue is found by going through the
    captured output lines from the last to the first: the first line that,
    stripped, contains [Error:] or [Exception:] and does not start with
    [File ] is the message, stripped; when no captured line passes this test
    the message is [Code execution failed].  The captured lines are those of
    the forward loop, and the issue's output is these lines joined. *)
Theorem error_message_selection lines start lvl :
  start < length lines →
  ∃ issue st e,
    scan_loop (S (length lines)) lines (start + 1) scan_init = Ok (st, e)
    ∧ parse_markdown_exec_issue lines start lvl = Ok (Some issue, e)
    ∧ output issue = join_or_none newline (output_lines st)
    ∧ selects_message (output_lines st) (message issue).
Proof.
  intros Hs.
  destruct (parse_markdown_exec_issue_ok lines start lvl Hs)
    as (issue & E & _ & _ & Hm & _ & Ho).
  rewrite scan_loop_list by lia.
  destruct (scan_list (drop (start + 1) lines) (start + 1) scan_init) as [st e].
  simpl in *. exists issue, st, e.
  repeat split; [exact E|exact Ho|rewrite Hm; apply find_error_msg_selects..].
Qed.

Lemma error_message_selection_witness :
  ∃ issue st e,
    scan_loop 7
      ["WARNING -  markdown_exec: Execution of python code block exited with errors";
       "Output is:"; "  benign line"; "  ValueError: message"; "  another benign line";
       "INFO -  Done"] (0 + 1) scan_init = Ok (st, e)
    ∧ parse_markdown_exec_issue
        ["WARNING -  markdown_exec: Execution of python code block exited with errors";
         "Output is:"; "  benign line"; "  ValueError: message"; "  another benign line";
         "INFO -  Done"] 0 WARNING = Ok (Some issue, e)
    ∧ output issue = join_or_none newline (output_lines st)
    ∧ selects_message (output_lines st) (message issue).
Proof.
  apply (error_message_selection
    ["WARNING -  markdown_exec: Execution of python code block exited with errors";
     "Output is:"; "  benign line"; "  ValueError: message"; "  another benign line";
     "INFO -  Done"] 0 WARNING).
  simpl. lia.
Defined.

(** The scenario of the specification: one [ValueError: message] line among
    benign ones is the message, wherever it stands. *)
Example value_error_is_selected :
  ∀ issue e,
    parse_markdown_exec_issue
      ["WARNING -  markdown_exec: Execution of python code block exited with errors";
       "Output is:"; "  benign line"; "  ValueError: message"; "  another benign line";
       "INFO -  Done"] 0 WARNING = Ok (Some issue, e) →
    message issue = "ValueError: message" ∧ e = 5.
Proof. intros issue e H. vm_compute in H. by simplify_eq. Qed.

End Message.

(** ** Issue identifiers *)

Section IssueIds.
Import Types McpServer.












(** The test vector of the standard for the message [abc], and the empty
    message. *)
Example sha256_test_vectors :
  id_token "abc" = "ba7816bf" ∧ id_token "" = "e3b0c442"
  ∧ length Sha256.K = 64 ∧ Sha256.K !! 0%nat = Some 0x428a2f98%N
  ∧ Sha256.K !! 63%nat = Some 0xc67178f2%N
  ∧ Sha256.H0 !! 0%nat = Some 0x6a09e667%N ∧ Sha256.H0 !! 7%nat = Some 0x5be0cd19%N.
Proof. repeat split; vm_compute; reflexivity. Qed.




End IssueIds.

(** ** Refreshing from the state file *)

Section Refresh.
Import Types McpServer.

(** C7, as the specification states it, fails for the build status: the
    status and the start time of the build are copied from the snapshot
    before its timestamp is looked at.  A snapshot as old as the last one
    seen turns a [complete] server into a [building] one. *)
Lemma stale_snapshot_status_counterexample :
  let self := new_server None false true in
  let snapshot :=
    {| build_status := "building"; build_started_at := Some 5%float;
       timestamp := 0%float; state_issues := []; state_info_messages := [];
       state_build_info := {| server_url := None; build_dir := None; build_time := None |};
       state_raw_output := [] |} in
  let r := _refresh_from_state_file (λ _, Some snapshot) self in
  PrimFloat.leb (timestamp snapshot) (_last_state_timestamp self) = true
  ∧ r.1 = false
  ∧ _build_status self = "complete"
  ∧ _build_status r.2 = "building"
  ∧ _build_status r.2 ≠ _build_status self.
Proof.
  cbv zeta. repeat split; try (vm_compute; reflexivity). vm_compute. discriminate.
Qed.

(** C7, amended.  When the snapshot in the state file has a timestamp not
    newer than the last one seen, the refresh returns false and leaves the
    issues, the info messages, the build info, the raw output, the last-seen
    timestamp and the identifier dictionary as they were.  In watch mode the
    build status and the build start time are those of the snapshot; out of
    watch mode the server is unchanged. *)
Theorem stale_snapshot_ignored read_state_file self snapshot :
  read_state_file (project_dir self) = Some snapshot →
  PrimFloat.leb (timestamp snapshot) (_last_state_timestamp self) = true →
  let r := _refresh_from_state_file read_state_file self in
  r.1 = false
  ∧ issues r.2 = issues self
  ∧ info_messages r.2 = info_messages self
  ∧ build_info r.2 = build_info self
  ∧ raw_output r.2 = raw_output self
  ∧ _last_state_timestamp r.2 = _last_state_timestamp self
  ∧ _issue_ids r.2 = _issue_ids self
  ∧ (watch_mode self = true →
     _build_status r.2 = build_status snapshot
     ∧ _build_started_at r.2 = build_started_at snapshot)
  ∧ (watch_mode self = false → r.2 = self).
Proof.
  intros Hread Hstale. cbv zeta. unfold _refresh_from_state_file.
  destruct (watch_mode self) eqn:Hw; simpl.
  - rewrite Hread. cbv zeta. simpl. rewrite Hstale. simpl.
    repeat split; try reflexivity; discriminate.
  - repeat split; try reflexivity; discriminate.
Qed.

Lemma stale_snapshot_ignored_witness :
  let self := new_server (Some "docs") false true in
  let snapshot :=
    {| build_status := "building"; build_started_at := Some 7%float;
       timestamp := 0%float;
       state_issues :=
         [{| level := WARNING; source := "mkdocs"; message := "Old warning";
             file := None; line_number := None; warning_code := None;
             code := None; output := None |}];
       state_info_messages := [];
       state_build_info :=
         {| server_url := None; build_dir := None; build_time := Some "1.00" |};
       state_raw_output := ["WARNING -  Old warning"] |} in
  let r := _refresh_from_state_file (λ _, Some snapshot) self in
  r.1 = false ∧ issues r.2 = [] ∧ raw_output r.2 = [] ∧ _build_status r.2 = "building".
Proof.
  cbv zeta.
  pose proof (stale_snapshot_ignored
    (λ _, Some
       {| build_status := "building"; build_started_at := Some 7%float;
          timestamp := 0%float;
          state_issues :=
            [{| level := WARNING; source := "mkdocs"; message := "Old warning";
                file := None; line_number := None; warning_code := None;
                code := None; output := None |}];
          state_info_messages := [];
          state_build_info :=
            {| server_url := None; build_dir := None; build_time := Some "1.00" |};
          state_raw_output := ["WARNING -  Old warning"] |})
    (new_server (Some "docs") false true) _ eq_refl eq_refl)
    as (H1 & H2 & _ & _ & H5 & _ & _ & H8 & _).
  split; [exact H1|].
  split; [exact H2|].
  split; [exact H5|exact (proj1 (H8 eq_refl))].
Defined.

(** A newer snapshot is taken over. *)
Example newer_snapshot_is_loaded :
  let self := new_server None false true in
  let snapshot :=
    {| build_status := "complete"; build_started_at := None;
       timestamp := 12.5%float; state_issues := []; state_info_messages := [];
       state_build_info :=
         {| server_url := None; build_dir := None; build_time := Some "1.00" |};
       state_raw_output := ["INFO -  Documentation built in 1.00 seconds"] |} in
  let r := _refresh_from_state_file (λ _, Some snapshot) self in
  r.1 = true
  ∧ build_time (build_info r.2) = Some "1.00"
  ∧ raw_output r.2 = ["INFO -  Documentation built in 1.00 seconds"].
Proof. cbv zeta. repeat split; vm_compute; reflexivity. Qed.

End Refresh.

(** * Further properties of the code *)

(** ** Stripping *)

Section Strip.

Lemma lstrip_idem s : lstrip (lstrip s) = lstrip s.
Proof.
  induction s as [|c s IH]; simpl; [reflexivity|].
  destruct (isspace c) eqn:E; [exact IH|]. simpl. by rewrite E.
Qed.

Lemma rstrip_idem s : rstrip (rstrip s) = rstrip s.
Proof.
  induction s as [|c s IH]; simpl; [reflexivity|].
  destruct (negb (truthy (rstrip s)) && isspace c) eqn:E; [reflexivity|].
  simpl. rewrite IH, E. reflexivity.
Qed.

Lemma rstrip_lstrip s : rstrip (lstrip s) = lstrip (rstrip s).
Proof.
  induction s as [|c s IH]; simpl; [reflexivity|].
  destruct (isspace c) eqn:E.
  - rewrite IH. destruct (rstrip s) eqn:Er; simpl; [reflexivity|].
    by rewrite E.
  - rewrite andb_false_r. simpl. by rewrite E, andb_false_r.
Qed.

Lemma strip_idem s : strip (strip s) = strip s.
Proof.
  unfold strip. by rewrite rstrip_lstrip, lstrip_idem, rstrip_idem.
Qed.

Lemma strip_rstrip s : strip (rstrip s) = strip s.
Proof. unfold strip. by rewrite rstrip_idem. Qed.

Lemma truthy_nonempty s : truthy s = true ↔ s ≠ "".
Proof. destruct s; simpl; split; done. Qed.

End Strip.

(** ** The resume index and the issues of a whole parse *)

Section ParseFacts.
Implicit Types (lines : list string) (i start : nat).

Lemma scan_step_None st l : scan_step st l = None → is_stop (strip l) = true.
Proof.
  unfold scan_step. cbv zeta.
  repeat case_bool_decide; try discriminate.
  destruct (is_stop (strip l)); [done|].
  destruct (in_code st && truthy (strip l)); [discriminate|].
  destruct (in_output st && truthy (strip l)); [|discriminate].
  destruct (re_search RE_SESSION (strip l)); discriminate.
Qed.

(** The scan ends at the end of the lines or on a line that passes a stop
    test. *)
Lemma scan_list_end rest i st :
  let e := (scan_list rest i st).2 in
  i ≤ e ≤ i + length rest
  ∧ (e < i + length rest →
     ∃ top, rest !! (e - i) = Some top ∧ is_stop (strip top) = true).
Proof.
  revert i st. induction rest as [|l rest IH]; intros i st; simpl.
  - split; lia.
  - destruct (scan_step st l) as [st'|] eqn:E; simpl.
    + destruct (IH (S i) st') as [Hb Hs]. split; [lia|].
      intros Hlt. destruct Hs as (top & Htop & Hstop); [lia|].
      exists top. split; [|exact Hstop].
      replace ((scan_list rest (S i) st').2 - i)
        with (S ((scan_list rest (S i) st').2 - S i)) by lia.
      exact Htop.
    + split; [lia|]. intros _. exists l. rewrite Nat.sub_diag.
      split; [reflexivity|by apply (scan_step_None st)].
Qed.

(** X1. The end index that [parse_markdown_exec_issue] returns lies after
    the start index and not beyond the end of the list, and when it is
    inside the list the line there passes one of the three stop tests. *)
Theorem end_index_in_bounds lines start lvl :
  start < length lines →
  ∃ issue e,
    parse_markdown_exec_issue lines start lvl = Ok (Some issue, e)
    ∧ start < e ≤ length lines
    ∧ (e < length lines →
       ∃ top, lines !! e = Some top ∧ is_stop (strip top) = true).
Proof.
  intros Hs.
  destruct (parse_markdown_exec_issue_ok lines start lvl Hs) as (issue & E & _).
  eexists issue, _. split; [exact E|].
  destruct (scan_list_end (drop (start + 1) lines) (start + 1) scan_init) as [Hb Hstop].
  rewrite length_drop in Hb, Hstop. split; [lia|].
  intros Hlt. destruct Hstop as (top & Htop & Hst); [lia|].
  exists top. split; [|exact Hst].
  rewrite lookup_drop in Htop.
  replace (start + 1 + ((scan_list (drop (start + 1) lines) (start + 1) scan_init).2
                         - (start + 1)))
    with (scan_list (drop (start + 1) lines) (start + 1) scan_init).2 in Htop by lia.
  exact Htop.
Qed.

Lemma end_index_in_bounds_witness :
  ∃ issue e,
    parse_markdown_exec_issue
      ["WARNING -  markdown_exec: failed"; "Output is:"; "  boom"; "INFO -  Done"]
      0 WARNING = Ok (Some issue, e)
    ∧ 0 < e ≤ 4
    ∧ (e < 4 →
       ∃ top,
         ["WARNING -  markdown_exec: failed"; "Output is:"; "  boom"; "INFO -  Done"] !! e
         = Some top ∧ is_stop (strip top) = true).
Proof.
  apply (end_index_in_bounds
    ["WARNING -  markdown_exec: failed"; "Output is:"; "  boom"; "INFO -  Done"]
    0 WARNING).
  simpl. lia.
Defined.

End ParseFacts.

Section WholeParse.
Implicit Types (lines : list string) (i : nat).

Lemma find_error_msg_stripped l : strip (find_error_msg l) = find_error_msg l.
Proof.
  induction l as [|x l IH]; simpl; [vm_compute; reflexivity|].
  destruct (is_error_line (strip x)); [apply strip_idem|exact IH].
Qed.

Lemma regular_issue_well_formed lines idx issues i line :
  lines !! i = Some line → is_level_line line = true →
  contains "markdown_exec" line = false →
  Forall2 (well_formed_issue lines) idx issues →
  ∃ idx',
    Forall2 (well_formed_issue lines) idx'
      (regular_issue issues line (level_of_line line))
    ∧ (idx' = idx ∨ idx' = idx ++ [i]).
Proof.
  intros Hl Hlvl Hme Hacc. unfold regular_issue. cbv zeta.
  change (startswith "raise " (strip line) || startswith "File " (strip line))
    with (is_traceback_line line).
  destruct (is_traceback_line line) eqn:Etb; [eauto|].
  destruct (truthy (strip (strip_log_prefixes line))) eqn:Et; [|eauto].
  exists (idx ++ [i]). split; [|by right].
  apply Forall2_app; [exact Hacc|]. constructor; [|constructor].
  split; [by apply truthy_nonempty|]. split; [apply strip_idem|].
  exists line. rewrite Hme. done.
Qed.

Lemma sorted_snoc (idx : list nat) i :
  StronglySorted lt idx → Forall (λ j, j < i) idx → StronglySorted lt (idx ++ [i]).
Proof.
  intros Hs Hlt. apply StronglySorted_app_2.
  - intros x1 x2 H1 ->%list_elem_of_singleton.
    by apply (proj1 (list.Forall_forall _ _) Hlt).
  - exact Hs.
  - repeat constructor.
Qed.

Lemma below_snoc (idx : list nat) i j :
  Forall (λ k, k < i) idx → i < j → Forall (λ k, k < j) (idx ++ [i]).
Proof.
  intros Hlt Hij. apply Forall_app. split.
  - eapply Forall_impl; [exact Hlt|]. simpl. lia.
  - by apply Forall_singleton.
Qed.

Lemma parse_loop_well_formed fuel lines i skip acc issues idx :
  Forall2 (well_formed_issue lines) idx acc →
  StronglySorted lt idx → Forall (λ j, j < i) idx →
  parse_loop fuel lines i skip acc = Ok issues →
  ∃ idx', Forall2 (well_formed_issue lines) idx' issues ∧ StronglySorted lt idx'.
Proof.
  revert i skip acc idx.
  induction fuel as [|fuel IH]; intros i skip acc idx Hacc Hs Hlt; [discriminate|].
  simpl. destruct (Nat.ltb_spec i (length lines)) as [Hi|Hi]; [|intros [= <-]; eauto].
  assert (Forall (λ j, j < S i) idx) as Hlt'.
  { eapply Forall_impl; [exact Hlt|]. simpl. lia. }
  destruct (Z.of_nat i <? skip)%Z; [by apply (IH _ _ _ idx)|].
  destruct (py_index_lt lines i Hi) as (x & Hl & ->). simpl.
  destruct (contains "WARNING" x || contains "ERROR" x) eqn:Hlvl;
    [|by apply (IH _ _ _ idx)].
  destruct (contains "markdown_exec" x) eqn:Hme.
  - destruct (parse_markdown_exec_issue_ok lines i (level_of_line x) Hi)
      as (issue & E & Hl' & Hsrc & Hm & _).
    pose proof (scan_list_index (drop (i + 1) lines) (i + 1) scan_init) as Hidx.
    change (if contains "ERROR" x then ERROR else WARNING) with (level_of_line x).
    rewrite E. simpl. apply (IH _ _ _ (idx ++ [i])).
    + apply Forall2_app; [exact Hacc|]. constructor; [|constructor].
      split; [rewrite Hm; apply find_error_msg_nonempty|].
      split; [rewrite Hm; apply find_error_msg_stripped|].
      exists x. rewrite Hme. split; [exact Hl|]. split; [exact Hlvl|].
      split; [exact Hl'|]. split; [exact Hsrc|]. eexists. exact E.
    + by apply sorted_snoc.
    + apply below_snoc; [exact Hlt|lia].
  - change (if contains "ERROR" x then ERROR else WARNING) with (level_of_line x).
    destruct (regular_issue_well_formed lines idx acc i x Hl Hlvl Hme Hacc)
      as (idx' & Hf & [->| ->]).
    + by apply (IH _ _ _ idx).
    + apply (IH _ _ _ (idx ++ [i])); [exact Hf|by apply sorted_snoc|].
      apply below_snoc; [exact Hlt|lia].
Qed.

(** X2. The issues that [parse_mkdocs_output] returns come, in the order of
    the input, from different lines of it.  The line of an issue contains
    [WARNING] or [ERROR], and the level of the issue is [ERROR] exactly when
    the line contains [ERROR].  At a line that contains [markdown_exec] the
    issue is the one [parse_markdown_exec_issue] builds from that line, with
    the source [markdown_exec]; at any other line, which is then no line of
    a traceback, it is the [mkdocs] issue without code and output whose
    message is that line without its log prefixes, stripped, and whose file
    is the quoted [.md] path of that message.  In both cases the message is
    not empty and has no surrounding whitespace. *)
Theorem issues_well_formed lines :
  ∃ issues idx,
    parse_mkdocs_output lines = Ok issues
    ∧ Forall2 (well_formed_issue lines) idx issues
    ∧ StronglySorted lt idx.
Proof.
  destruct (parse_loop_ok (S (length lines)) lines 0 (-1) []) as [issues E]; [lia|].
  destruct (parse_loop_well_formed (S (length lines)) lines 0 (-1) [] issues [])
    as (idx & Hf & Hs); [constructor|constructor|constructor|exact E|].
  exists issues, idx. done.
Qed.

Lemma level_lines_drop lines i x :
  lines !! i = Some x →
  length (List.filter is_level_line (drop i lines))
  = (if is_level_line x then 1 else 0)
    + length (List.filter is_level_line (drop (S i) lines)).
Proof.
  intros H. rewrite (drop_S _ _ _ H). simpl. destruct (is_level_line x); reflexivity.
Qed.

Lemma level_lines_drop_le lines i j :
  i ≤ j →
  length (List.filter is_level_line (drop j lines))
  ≤ length (List.filter is_level_line (drop i lines)).
Proof.
  induction 1 as [|j Hij IH]; [lia|].
  destruct (lines !! j) as [x|] eqn:E.
  - rewrite (level_lines_drop lines j x E) in IH. lia.
  - rewrite drop_ge; [simpl; lia|]. apply lookup_ge_None in E. lia.
Qed.

Lemma parse_loop_count fuel lines i skip acc issues :
  parse_loop fuel lines i skip acc = Ok issues →
  length issues ≤ length acc + length (List.filter is_level_line (drop i lines)).
Proof.
  revert i skip acc. induction fuel as [|fuel IH]; intros i skip acc; [discriminate|].
  simpl. destruct (Nat.ltb_spec i (length lines)) as [Hi|Hi]; [|intros [= <-]; lia].
  destruct (py_index_lt lines i Hi) as (x & Hl & Hx).
  pose proof (level_lines_drop lines i x Hl) as Hd.
  destruct (Z.of_nat i <? skip)%Z; [intros H%IH; lia|].
  rewrite Hx. simpl.
  change (is_level_line x) with (contains "WARNING" x || contains "ERROR" x) in Hd.
  destruct (contains "WARNING" x || contains "ERROR" x) eqn:Hlvl; [|intros H%IH; lia].
  destruct (contains "markdown_exec" x).
  - destruct (parse_markdown_exec_issue_ok lines i
                (if contains "ERROR" x then ERROR else WARNING) Hi) as (issue & -> & _).
    simpl. intros H%IH. rewrite length_app in H. simpl in H.
    pose proof (scan_list_index (drop (i + 1) lines) (i + 1) scan_init) as Hidx.
    assert (S i ≤ (scan_list (drop (i + 1) lines) (i + 1) scan_init).2) as Hj by lia.
    pose proof (level_lines_drop_le lines _ _ Hj) as Hle.
    lia.
  - intros H%IH.
    assert (length (regular_issue acc x (if contains "ERROR" x then ERROR else WARNING))
            ≤ S (length acc)) as Hr.
    { unfold regular_issue. cbv zeta.
      destruct (startswith "raise " (strip x) || startswith "File " (strip x)); [lia|].
      destruct (truthy _); [rewrite length_app; simpl; lia|lia]. }
    lia.
Qed.

(** X3. [parse_mkdocs_output] reports at most one issue for each line that
    contains [WARNING] or [ERROR]; from lines without these words it reports
    nothing. *)
Theorem issue_count_bounded lines :
  ∃ issues,
    parse_mkdocs_output lines = Ok issues
    ∧ length issues ≤ length (List.filter is_level_line lines)
    ∧ (Forall (λ l, is_level_line l = false) lines → issues = []).
Proof.
  destruct (parse_loop_ok (S (length lines)) lines 0 (-1) []) as [issues E]; [lia|].
  exists issues. split; [exact E|].
  pose proof (parse_loop_count _ _ _ _ _ _ E) as Hc. rewrite drop_0 in Hc.
  change (length issues ≤ length (List.filter is_level_line lines)) in Hc.
  split; [exact Hc|].
  intros Hnone.
  assert (List.filter is_level_line lines = []) as Hf.
  { clear -Hnone. induction Hnone as [|x l Hx _ IH]; simpl; [reflexivity|].
    by rewrite Hx. }
  rewrite Hf in Hc. simpl in Hc. destruct issues; [reflexivity|simpl in Hc; lia].
Qed.

Lemma regular_issue_plain acc line :
  is_level_line line = true →
  regular_issue acc line (level_of_line line)
  = acc ++ option_list (issue_of_plain_line line).
Proof.
  intros Hlvl. unfold regular_issue, issue_of_plain_line. cbv zeta. rewrite Hlvl.
  change (startswith "raise " (strip line) || startswith "File " (strip line))
    with (is_traceback_line line).
  destruct (is_traceback_line line); simpl; [by rewrite app_nil_r|].
  destruct (truthy _); simpl; [reflexivity|by rewrite app_nil_r].
Qed.

Lemma parse_loop_plain fuel lines i acc :
  Forall (λ l, contains "markdown_exec" l = false) lines →
  length lines - i < fuel →
  parse_loop fuel lines i (-1) acc
  = Ok (acc ++ omap issue_of_plain_line (drop i lines)).
Proof.
  intros Hp. revert i acc. induction fuel as [|fuel IH]; intros i acc Hf; [lia|].
  simpl. destruct (Nat.ltb_spec i (length lines)) as [Hi|Hi].
  2:{ rewrite drop_ge by lia. simpl. by rewrite app_nil_r. }
  assert ((Z.of_nat i <? -1)%Z = false) as -> by (apply Z.ltb_ge; lia).
  destruct (py_index_lt lines i Hi) as (x & Hl & ->). simpl.
  rewrite (drop_S _ _ _ Hl).
  assert (contains "markdown_exec" x = false) as ->.
  { by apply (proj1 (list.Forall_forall _ _) Hp), list_elem_of_lookup_2 with i. }
  change (contains "WARNING" x || contains "ERROR" x) with (is_level_line x).
  change (if contains "ERROR" x then ERROR else WARNING) with (level_of_line x).
  assert (∀ l, omap issue_of_plain_line (x :: l)
               = option_list (issue_of_plain_line x) ++ omap issue_of_plain_line l) as ->.
  { intros l. change (omap issue_of_plain_line (x :: l))
      with (match issue_of_plain_line x with
            | Some y => y :: omap issue_of_plain_line l
            | None => omap issue_of_plain_line l
            end).
    by destruct (issue_of_plain_line x). }
  destruct (is_level_line x) eqn:Hlvl.
  - rewrite IH by lia. by rewrite (regular_issue_plain acc x Hlvl), <- app_assoc.
  - unfold issue_of_plain_line at 1. rewrite Hlvl. simpl. apply IH. lia.
Qed.

(** X18. On input without a [markdown_exec] line, [parse_mkdocs_output]
    returns, in the order of the input, exactly one [mkdocs] issue for each
    line that contains [WARNING] or [ERROR], is no line of a traceback and
    keeps a message once its log prefixes are removed, and nothing for any
    other line.  The issue has the level of its line ([ERROR] exactly when
    the line contains [ERROR]), the stripped message, the quoted [.md] path
    of the message as its file, and neither code nor output. *)
Theorem plain_lines_parse lines :
  Forall (λ l, contains "markdown_exec" l = false) lines →
  parse_mkdocs_output lines = Ok (omap issue_of_plain_line lines).
Proof.
  intros Hp. unfold parse_mkdocs_output.
  rewrite (parse_loop_plain _ lines 0 []) by (done || lia). by rewrite drop_0.
Qed.

Lemma plain_lines_parse_witness :
  parse_mkdocs_output
    ["INFO -  Building"; "WARNING -  Same warning"; "  File ERROR.py";
     "ERROR -  Broken link in 'docs/a.md'"; "WARNING - "]
  = Ok (omap issue_of_plain_line
    ["INFO -  Building"; "WARNING -  Same warning"; "  File ERROR.py";
     "ERROR -  Broken link in 'docs/a.md'"; "WARNING - "]).
Proof.
  apply (plain_lines_parse
    ["INFO -  Building"; "WARNING -  Same warning"; "  File ERROR.py";
     "ERROR -  Broken link in 'docs/a.md'"; "WARNING - "]).
  repeat constructor.
Defined.

(** The issues of these five lines: the second and the fourth have one. *)
Example plain_lines_example :
  omap issue_of_plain_line
    ["INFO -  Building"; "WARNING -  Same warning"; "  File ERROR.py";
     "ERROR -  Broken link in 'docs/a.md'"; "WARNING - "]
  = [ {| level := WARNING; source := "mkdocs"; message := "Same warning";
         file := None; code := None; output := None |};
      {| level := ERROR; source := "mkdocs"; message := "Broken link in 'docs/a.md'";
         file := Some "docs/a.md"; code := None; output := None |} ].
Proof. vm_compute. reflexivity. Qed.

End WholeParse.

(** ** Patterns with and without groups *)

Section Groups.

Lemma rep_greedy_mono {R R'} p lo hi s (k : string → option R) (k' : string → option R') :
  (∀ s', is_Some (k s') → is_Some (k' s')) →
  is_Some (rep_greedy p lo hi s k) → is_Some (rep_greedy p lo hi s k').
Proof.
  intros Hk. revert lo hi. induction s as [|c s IH]; intros lo hi; simpl.
  - destruct (lo =? 0)%nat; [apply Hk|done].
  - destruct (p c && hi_allows hi); [|destruct (lo =? 0)%nat; [apply Hk|done]].
    specialize (IH (pred lo) (hi_pred hi)).
    destruct (rep_greedy p (pred lo) (hi_pred hi) s k).
    + intros _. destruct IH as [x ->]; done.
    + destruct (rep_greedy p (pred lo) (hi_pred hi) s k'); [done|].
      destruct (lo =? 0)%nat; [apply Hk|done].
Qed.

Lemma rep_lazy_mono {R R'} p lo hi s (k : string → option R) (k' : string → option R') :
  (∀ s', is_Some (k s') → is_Some (k' s')) →
  is_Some (rep_lazy p lo hi s k) → is_Some (rep_lazy p lo hi s k').
Proof.
  intros Hk. revert lo hi. induction s as [|c s IH]; intros lo hi; simpl.
  - destruct (lo =? 0)%nat; [|done].
    specialize (Hk ""). destruct (k ""); [|by intros []].
    intros _. destruct Hk as [x ->]; done.
  - specialize (IH (pred lo) (hi_pred hi)). specialize (Hk (String c s)).
    destruct (lo =? 0)%nat.
    + destruct (k (String c s)).
      * intros _. destruct Hk as [x ->]; done.
      * destruct (k' (String c s)); [done|].
        destruct (p c && hi_allows hi); [exact IH|done].
    + destruct (p c && hi_allows hi); [exact IH|done].
Qed.

(** Whether a pattern matches does not depend on its groups: with a rest of
    the pattern that succeeds at least as often, the pattern without groups
    matches where the pattern with groups does, and conversely. *)
Lemma rmatch_erase {R R'} r s cs cs'
    (k : string → caps → option R) (k' : string → caps → option R') :
  (∀ s1 cs1 cs1', is_Some (k s1 cs1) → is_Some (k' s1 cs1')) →
  is_Some (rmatch r s cs k) → is_Some (rmatch (erase r) s cs' k').
Proof.
  revert s cs cs' k k'.
  induction r as [l|p|g lo hi p|r1 IH1 r2 IH2|r1 IH1 r2 IH2|m r1 IH1];
    intros s cs cs' k k' Hk; simpl.
  - destruct (strip_prefix l s); [apply Hk|done].
  - destruct s as [|c s]; [done|]. destruct (p c); [apply Hk|done].
  - destruct g; [apply rep_greedy_mono|apply rep_lazy_mono]; intros s'; apply Hk.
  - apply IH1. intros s1 cs1 cs1'. by apply IH2.
  - specialize (IH1 s cs cs' k k' Hk). specialize (IH2 s cs cs' k k' Hk).
    destruct (rmatch r1 s cs k).
    + intros _. destruct IH1 as [x ->]; done.
    + destruct (rmatch (erase r1) s cs' k'); [done|exact IH2].
  - apply IH1. intros s1 cs1 cs1'. apply Hk.
Qed.

Lemma rmatch_unerase {R R'} r s cs cs'
    (k : string → caps → option R) (k' : string → caps → option R') :
  (∀ s1 cs1 cs1', is_Some (k' s1 cs1') → is_Some (k s1 cs1)) →
  is_Some (rmatch (erase r) s cs' k') → is_Some (rmatch r s cs k).
Proof.
  revert s cs cs' k k'.
  induction r as [l|p|g lo hi p|r1 IH1 r2 IH2|r1 IH1 r2 IH2|m r1 IH1];
    intros s cs cs' k k' Hk; simpl.
  - destruct (strip_prefix l s); [apply Hk|done].
  - destruct s as [|c s]; [done|]. destruct (p c); [apply Hk|done].
  - destruct g; [apply rep_greedy_mono|apply rep_lazy_mono]; intros s'; apply Hk.
  - apply IH1. intros s1 cs1 cs1'. by apply IH2.
  - specialize (IH1 s cs cs' k k' Hk). specialize (IH2 s cs cs' k k' Hk).
    destruct (rmatch (erase r1) s cs' k').
    + intros _. destruct IH1 as [x ->]; done.
    + destruct (rmatch r1 s cs k); [done|exact IH2].
  - apply (IH1 s cs cs'). intros s1 cs1 cs1'. apply Hk.
Qed.

Lemma re_search_mono r r' s :
  (∀ s', is_Some (re_match r s') → is_Some (re_match r' s')) →
  is_Some (re_search r s) → is_Some (re_search r' s).
Proof.
  intros H. induction s as [|c s IH]; simpl.
  - specialize (H ""). destruct (re_match r ""); [|by intros []].
    intros _. destruct H as [x ->]; done.
  - specialize (H (String c s)). destruct (re_match r (String c s)).
    + intros _. destruct H as [x ->]; done.
    + destruct (re_match r' (String c s)); [done|exact IH].
Qed.

Lemma re_search_erase r s : is_Some (re_search r s) ↔ is_Some (re_search (erase r) s).
Proof.
  split; apply re_search_mono; intros s'; unfold re_match.
  - by apply rmatch_erase.
  - by apply rmatch_unerase.
Qed.

End Groups.

(** ** Boundaries and build information together *)

Section BoundaryFacts.

(** X4. The previous line matters to [detect_chunk_boundary] only through
    its being blank, and only to turn [NONE] into [ERROR_BLOCK_END]: without
    a previous line, or after a line that is not blank, the label is the
    one of the line alone and is never [ERROR_BLOCK_END]. *)
Theorem previous_line_only_closes_blocks line prev :
  (detect_chunk_boundary line prev = detect_chunk_boundary line None
   ∨ (detect_chunk_boundary line None = NONE
      ∧ detect_chunk_boundary line prev = ERROR_BLOCK_END
      ∧ ∃ p, prev = Some p ∧ strip p = ""))
  ∧ detect_chunk_boundary line None ≠ ERROR_BLOCK_END
  ∧ (∀ p, strip p ≠ "" →
       detect_chunk_boundary line (Some p) = detect_chunk_boundary line None)
  ∧ (∀ p q, strip p = "" → strip q = "" →
       detect_chunk_boundary line (Some p) = detect_chunk_boundary line (Some q)).
Proof.
  unfold detect_chunk_boundary. cbv zeta.
  destruct (matches (re_search RE_BUILT line));
    [repeat split; (by left) || done|].
  destruct (matches (re_search RE_SERVING line));
    [repeat split; (by left) || done|].
  destruct (contains "Detected file changes" line || contains "Reloading docs" line);
    [repeat split; (by left) || done|].
  destruct (matches (re_match RE_DATE (strip line))
            && contains "Building documentation" line);
    [repeat split; (by left) || done|].
  split; [|split; [done|split]].
  - destruct prev as [p|]; [|by left].
    destruct (strip p) eqn:Ep; simpl; [|by left].
    destruct (matches (re_match RE_LEVEL3 (strip line)));
      [right; eauto|].
    destruct (matches (re_match RE_DATED_LEVEL3 (strip line)));
      [right; eauto|by left].
  - intros p Hp. destruct (strip p); done.
  - intros p q -> ->. reflexivity.
Qed.

Lemma detect_build_complete_inv line prev :
  detect_chunk_boundary line prev = BUILD_COMPLETE →
  matches (re_search RE_BUILT line) = true.
Proof.
  unfold detect_chunk_boundary. cbv zeta.
  destruct (matches (re_search RE_BUILT line)); [done|].
  repeat (match goal with |- context [if ?b then _ else _] => destruct b end;
          try discriminate).
Qed.

Lemma extract_single line :
  ∃ info,
    extract_build_info [line] = Ok info
    ∧ server_url info = server_url_of line
    ∧ build_time info = build_time_of line
    ∧ build_dir info = build_dir_of line.
Proof.
  unfold extract_build_info.
  destruct (extract_fold
    {| server_url := None; build_dir := None; build_time := None |} [line])
    as (info & E & A & B & C).
  exists info. split; [exact E|]. unfold overwrite in A, B, C. simpl in A, B, C.
  rewrite A, B, C.
  destruct (server_url_of line), (build_time_of line), (build_dir_of line); done.
Qed.

(** X5. The two functions agree on build completion: a line gives
    [extract_build_info] a build time exactly when [detect_chunk_boundary]
    labels it [BUILD_COMPLETE], whatever the previous line. *)
Theorem build_time_iff_build_complete line prev :
  ∃ info,
    extract_build_info [line] = Ok info
    ∧ (is_Some (build_time info) ↔ detect_chunk_boundary line prev = BUILD_COMPLETE).
Proof.
  destruct (extract_single line) as (info & E & _ & Hb & _).
  exists info. split; [exact E|]. rewrite Hb.
  destruct (field_of_None line) as (_ & Hn & _).
  split.
  - intros Hs. apply detect_built, matches_Some.
    change RE_BUILT with (erase RE_BUILT_TIME).
    apply (proj1 (re_search_erase RE_BUILT_TIME line)).
    destruct (re_search RE_BUILT_TIME line); [done|].
    rewrite (proj2 Hn eq_refl) in Hs. by destruct Hs.
  - intros Hd%detect_build_complete_inv%matches_Some.
    change RE_BUILT with (erase RE_BUILT_TIME) in Hd.
    apply (proj2 (re_search_erase RE_BUILT_TIME line)) in Hd.
    destruct (build_time_of line) eqn:Eb; [done|].
    rewrite (proj1 Hn eq_refl) in Hd. by destruct Hd.
Qed.

Lemma strip_prefix_append a b s :
  strip_prefix (a +:+ b) s = strip_prefix a s ≫= strip_prefix b.
Proof.
  revert s. induction a as [|c a IH]; intros s; simpl; [reflexivity|].
  destruct s as [|c' s]; [reflexivity|].
  destruct (Ascii.eqb c c'); [apply IH|reflexivity].
Qed.

Lemma serving_url_is_serving s :
  is_Some (re_match RE_SERVING_URL s) → is_Some (re_match RE_SERVING s).
Proof.
  unfold re_match, RE_SERVING_URL, RE_SERVING, cat, opt, plus. simpl foldr.
  cbn [rmatch].
  change "Serving on http" with ("Serving on " +:+ "http").
  rewrite strip_prefix_append.
  destruct (strip_prefix "Serving on " s) as [s1|]; [|done].
  cbn [mbind option_bind].
  destruct (strip_prefix "http" s1) as [s2|]; [|done].
  apply rep_greedy_mono. intros s3.
  destruct (strip_prefix "://" s3) as [s4|]; [|done].
  intros _. cbn [strip_prefix]. done.
Qed.

(** X6. A line that gives [extract_build_info] a server URL is a boundary:
    [detect_chunk_boundary] labels it [SERVER_STARTED], or [BUILD_COMPLETE]
    when it also states a build time.  The converse fails: [Serving on
    http://] with nothing after it is a [SERVER_STARTED] boundary without a
    URL. *)
Theorem server_url_implies_boundary line prev :
  (∃ info,
     extract_build_info [line] = Ok info
     ∧ (is_Some (server_url info) →
        detect_chunk_boundary line prev = SERVER_STARTED
        ∨ detect_chunk_boundary line prev = BUILD_COMPLETE))
  ∧ detect_chunk_boundary "INFO -  Serving on http://" prev = SERVER_STARTED
  ∧ extract_build_info ["INFO -  Serving on http://"]
    = Ok {| server_url := None; build_dir := None; build_time := None |}.
Proof.
  split; [|split; vm_compute; reflexivity].
  destruct (extract_single line) as (info & E & Hu & _).
  exists info. split; [exact E|]. rewrite Hu. intros Hs.
  assert (matches (re_search RE_SERVING line) = true) as Hserv.
  { apply matches_Some. apply (re_search_mono RE_SERVING_URL);
      [apply serving_url_is_serving|].
    unfold server_url_of in Hs. destruct (re_search RE_SERVING_URL line); [done|].
    by destruct Hs. }
  unfold detect_chunk_boundary. cbv zeta. rewrite Hserv.
  destruct (matches (re_search RE_BUILT line)); [by right|by left].
Qed.

Lemma server_url_implies_boundary_witness :
  ∃ info,
    extract_build_info ["INFO -  Serving on http://127.0.0.1:8000/"] = Ok info
    ∧ server_url info = Some "http://127.0.0.1:8000/"
    ∧ detect_chunk_boundary "INFO -  Serving on http://127.0.0.1:8000/" None
      = SERVER_STARTED.
Proof.
  destruct (proj1 (server_url_implies_boundary
                     "INFO -  Serving on http://127.0.0.1:8000/" None))
    as (info & E & H).
  exists info. split; [exact E|].
  assert (server_url info = Some "http://127.0.0.1:8000/") as Hu.
  { vm_compute in E. by injection E as <-. }
  split; [exact Hu|].
  destruct H as [H|H]; [by rewrite Hu|exact H|].
  vm_compute in H. discriminate.
Defined.

Lemma overwrite_app f acc lines1 lines2 :
  overwrite f acc (lines1 ++ lines2) = overwrite f (overwrite f acc lines1) lines2.
Proof. unfold overwrite. apply foldl_app. Qed.

Lemma overwrite_or_else f acc lines :
  overwrite f acc lines = or_else (overwrite f None lines) acc.
Proof.
  revert acc. induction lines as [|x lines IH]; intros acc; [reflexivity|].
  unfold overwrite in *. simpl. destruct (f x) as [v|]; [|apply IH].
  rewrite (IH (Some v)), (IH (@None string)).
  match goal with |- context [or_else ?o _] => destruct o end; reflexivity.
Qed.

(** X7. [extract_build_info] can be run in pieces: for lines given in two
    parts, each field of the whole is the field of the second part where
    the second part sets it, and the field of the first part elsewhere. *)
Theorem extract_build_info_app lines1 lines2 :
  ∃ info1 info2 info,
    extract_build_info lines1 = Ok info1
    ∧ extract_build_info lines2 = Ok info2
    ∧ extract_build_info (lines1 ++ lines2) = Ok info
    ∧ server_url info = or_else (server_url info2) (server_url info1)
    ∧ build_dir info = or_else (build_dir info2) (build_dir info1)
    ∧ build_time info = or_else (build_time info2) (build_time info1).
Proof.
  unfold extract_build_info.
  destruct (extract_fold
    {| server_url := None; build_dir := None; build_time := None |} lines1)
    as (info1 & E1 & A1 & B1 & C1).
  destruct (extract_fold
    {| server_url := None; build_dir := None; build_time := None |} lines2)
    as (info2 & E2 & A2 & B2 & C2).
  destruct (extract_fold
    {| server_url := None; build_dir := None; build_time := None |} (lines1 ++ lines2))
    as (info & E & A & B & C).
  exists info1, info2, info. repeat (split; [assumption|]).
  rewrite A, B, C, A1, B1, C1, A2, B2, C2. simpl.
  rewrite !overwrite_app.
  rewrite (overwrite_or_else server_url_of (overwrite server_url_of None lines1)).
  rewrite (overwrite_or_else build_dir_of (overwrite build_dir_of None lines1)).
  rewrite (overwrite_or_else build_time_of (overwrite build_time_of None lines1)).
  done.
Qed.

End BoundaryFacts.

(** ** The lookback window of the block reconstructor *)

Section Lookback.
Implicit Types (lines : list string) (k start : nat).

Lemma py_index_drop lines k (j : Z) :
  (Z.of_nat k ≤ j)%Z → py_index (drop k lines) (j - Z.of_nat k) = py_index lines j.
Proof.
  intros Hj. unfold py_index. cbv zeta.
  assert ((0 <=? j - Z.of_nat k)%Z = true) as E1 by (apply Z.leb_le; lia).
  assert ((0 <=? j)%Z = true) as E2 by (apply Z.leb_le; lia).
  rewrite E1, E2. cbv iota. rewrite E1, E2, lookup_drop.
  replace (k + Z.to_nat (j - Z.of_nat k)) with (Z.to_nat j) by lia.
  reflexivity.
Qed.

Lemma find_file_drop lines k (js : list Z) :
  Forall (λ j, (Z.of_nat k ≤ j)%Z) js →
  find_file (drop k lines) ((λ j, (j - Z.of_nat k)%Z) <$> js) = find_file lines js.
Proof.
  induction 1 as [|j js Hj _ IH]; simpl; [reflexivity|].
  rewrite py_index_drop by exact Hj.
  destruct (py_index lines j) as [x| |]; simpl; try reflexivity.
  destruct (file_hint x) as [[f|]| |]; simpl; try reflexivity. exact IH.
Qed.

Lemma scan_list_shift rest i d st :
  scan_list rest (i + d) st
  = ((scan_list rest i st).1, (scan_list rest i st).2 + d).
Proof.
  revert i st. induction rest as [|l rest IH]; intros i st; simpl; [reflexivity|].
  destruct (scan_step st l) as [st'|]; [|reflexivity].
  apply (IH (S i)).
Qed.

(** X8. The backward search for the file reads the 49 lines before the
    header and no line before them.  Dropping [k] lines from the front of
    the buffer, with at least 49 lines left before the header, gives the
    same issue, and the end index moves by [k]. *)
Theorem lookback_window lines k start lvl :
  k + 49 ≤ start → start < length lines →
  ∃ issue e,
    parse_markdown_exec_issue lines start lvl = Ok (Some issue, e)
    ∧ parse_markdown_exec_issue (drop k lines) (start - k) lvl
      = Ok (Some issue, e - k)
    ∧ k < e.
Proof.
  intros Hk Hs.
  destruct (parse_markdown_exec_issue_ok lines start lvl Hs) as (issue & E & _).
  exists issue, (scan_list (drop (start + 1) lines) (start + 1) scan_init).2.
  split; [exact E|].
  pose proof (scan_list_index (drop (start + 1) lines) (start + 1) scan_init) as Hidx.
  split; [|lia].
  revert E. unfold parse_markdown_exec_issue. cbv zeta.
  assert (range_down (Z.of_nat (start - k) - 1) (Z.max (-1) (Z.of_nat (start - k) - 50))
          = (λ j, (j - Z.of_nat k)%Z)
              <$> range_down (Z.of_nat start - 1) (Z.max (-1) (Z.of_nat start - 50)))
    as ->.
  { unfold range_down. rewrite <- list_fmap_compose.
    replace (Z.to_nat (Z.of_nat (start - k) - 1 - Z.max (-1) (Z.of_nat (start - k) - 50)))
      with 49 by lia.
    replace (Z.to_nat (Z.of_nat start - 1 - Z.max (-1) (Z.of_nat start - 50)))
      with 49 by lia.
    apply list_fmap_ext. intros i x Hx. simpl. lia. }
  rewrite find_file_drop.
  2:{ apply list.Forall_forall. intros j Hj.
      unfold range_down in Hj. apply list_elem_of_fmap in Hj as (t & -> & Ht).
      apply elem_of_seq in Ht. lia. }
  destruct (find_file lines _) as [f| |]; cbn [mbind res_bind]; try discriminate.
  rewrite !scan_loop_list by (rewrite ?length_drop; lia).
  rewrite drop_drop.
  replace (k + (start - k + 1)) with (start + 1) by lia.
  pose proof (scan_list_shift (drop (start + 1) lines) (start - k + 1) k scan_init) as Hsh.
  replace (start - k + 1 + k) with (start + 1) in Hsh by lia.
  rewrite Hsh.
  destruct (scan_list (drop (start + 1) lines) (start - k + 1) scan_init) as [st e].
  simpl. intros [= <-]. do 3 f_equal. lia.
Qed.

Lemma lookback_window_witness :
  ∃ issue e,
    parse_markdown_exec_issue
      (replicate 50 "INFO -  page" ++ ["WARNING -  markdown_exec: failed"; "INFO -  Done"])
      50 WARNING
    = Ok (Some issue, e)
    ∧ parse_markdown_exec_issue
        (drop 1 (replicate 50 "INFO -  page"
                 ++ ["WARNING -  markdown_exec: failed"; "INFO -  Done"]))
        (50 - 1) WARNING
      = Ok (Some issue, e - 1)
    ∧ 1 < e.
Proof.
  apply (lookback_window
    (replicate 50 "INFO -  page" ++ ["WARNING -  markdown_exec: failed"; "INFO -  Done"])
    1 50 WARNING).
  - lia.
  - vm_compute. lia.
Defined.

End Lookback.

(** ** The optional fields of a reconstructed issue *)

Section OptionalFields.

Lemma rstrip_nonblank l : truthy (strip l) = true → rstrip l ≠ "".
Proof. unfold strip. intros H E. rewrite E in H. discriminate. Qed.

Lemma scan_step_nonempty st l st' :
  scan_step st l = Some st' →
  Forall (λ x, x ≠ "") (code_lines st) → Forall (λ x, x ≠ "") (output_lines st) →
  Forall (λ x, x ≠ "") (code_lines st') ∧ Forall (λ x, x ≠ "") (output_lines st').
Proof.
  unfold scan_step. cbv zeta. intros H Hc Ho.
  repeat case_bool_decide; [by injection H as <-..|].
  destruct (is_stop (strip l)); [discriminate|].
  destruct (in_code st); simpl in H.
  - destruct (truthy (strip l)) eqn:Et; simpl in H.
    + injection H as <-. simpl. split; [|exact Ho].
      apply Forall_app. split; [exact Hc|]. apply Forall_singleton.
      by apply rstrip_nonblank.
    + destruct (in_output st); simpl in H; by injection H as <-.
  - destruct (in_output st); simpl in H; [|by injection H as <-].
    destruct (truthy (strip l)) eqn:Et; simpl in H; [|by injection H as <-].
    assert (Forall (λ x, x ≠ "") (output_lines st ++ [rstrip l])) as Ho'.
    { apply Forall_app. split; [exact Ho|]. apply Forall_singleton.
      by apply rstrip_nonblank. }
    destruct (re_search RE_SESSION (strip l)); by injection H as <-.
Qed.

Lemma scan_list_nonempty rest i st :
  Forall (λ x, x ≠ "") (code_lines st) → Forall (λ x, x ≠ "") (output_lines st) →
  Forall (λ x, x ≠ "") (code_lines (scan_list rest i st).1)
  ∧ Forall (λ x, x ≠ "") (output_lines (scan_list rest i st).1).
Proof.
  revert i st. induction rest as [|l rest IH]; intros i st Hc Ho; simpl; [done|].
  destruct (scan_step st l) as [st'|] eqn:E; simpl; [|done].
  destruct (scan_step_nonempty st l st' E Hc Ho) as [Hc' Ho'].
  by apply IH.
Qed.

Lemma join_or_none_nonempty sep l :
  Forall (λ x, x ≠ "") l → join_or_none sep l ≠ Some "".
Proof.
  destruct l as [|x l]; simpl; [done|].
  intros Hl%Forall_cons_1 [= E]. destruct Hl as [Hx _].
  unfold join in E. destruct l as [|y l]; simpl in E; [done|].
  destruct x; [done|discriminate].
Qed.

Lemma location_parts_nonempty f s n :
  Forall (λ x, x ≠ "") (location_parts f s n).
Proof.
  unfold location_parts. repeat apply Forall_app_2.
  - destruct f as [[|c f]|]; simpl; repeat constructor. done.
  - destruct (opt_truthy s); repeat constructor. done.
  - destruct (opt_truthy n); repeat constructor. done.
Qed.

(** X9. In the issue of [parse_markdown_exec_issue] the file, the code and
    the output are absent or non-empty: none of them is the empty string. *)
Theorem optional_fields_not_empty lines start lvl :
  start < length lines →
  ∃ issue e,
    parse_markdown_exec_issue lines start lvl = Ok (Some issue, e)
    ∧ file issue ≠ Some ""
    ∧ code issue ≠ Some ""
    ∧ output issue ≠ Some "".
Proof.
  intros Hs. unfold parse_markdown_exec_issue.
  destruct (find_file_ok lines
    (range_down (Z.of_nat start - 1) (Z.max (-1) (Z.of_nat start - 50)))) as [f ->].
  { intros j Hj%range_down_bounds. lia. }
  cbn [mbind res_bind]. rewrite scan_loop_list by lia.
  destruct (scan_list_nonempty (drop (start + 1) lines) (start + 1) scan_init)
    as [Hc Ho]; [constructor..|].
  destruct (scan_list _ _ _) as [st i]. simpl in *.
  eexists _, _. split; [reflexivity|]. simpl.
  split; [apply join_or_none_nonempty, location_parts_nonempty|].
  split; by apply join_or_none_nonempty.
Qed.

Lemma optional_fields_not_empty_witness :
  ∃ issue e,
    parse_markdown_exec_issue
      ["WARNING -  markdown_exec: failed"; "Code block is:"; "   "; "Output is:"] 0 WARNING
    = Ok (Some issue, e)
    ∧ file issue ≠ Some ""
    ∧ code issue ≠ Some ""
    ∧ output issue ≠ Some "".
Proof.
  apply (optional_fields_not_empty
    ["WARNING -  markdown_exec: failed"; "Code block is:"; "   "; "Output is:"] 0 WARNING).
  simpl. lia.
Defined.

End OptionalFields.

(** ** Open and closed blocks *)

Section Multiline.
Implicit Types (lines : list string) (i j k : nat).

Lemma range_up_seq (a b : nat) :
  range_up (Z.of_nat a) (Z.of_nat b) = Z.of_nat <$> seq a (b - a).
Proof.
  unfold range_up. replace (Z.to_nat (Z.of_nat b - Z.of_nat a)) with (b - a) by lia.
  replace (seq a (b - a)) with (seq (a + 0) (b - a)) by (f_equal; lia).
  rewrite <- (fmap_add_seq a 0 (b - a)), <- list_fmap_compose.
  apply list_fmap_ext. intros n x _. simpl. lia.
Qed.

Lemma range_down_S k :
  range_down (Z.of_nat (S k) - 1) (-1)
  = Z.of_nat k :: range_down (Z.of_nat k - 1) (-1).
Proof.
  unfold range_down.
  replace (Z.to_nat (Z.of_nat (S k) - 1 - -1)) with (S k) by lia.
  replace (Z.to_nat (Z.of_nat k - 1 - -1)) with k by lia.
  simpl. f_equal; [lia|].
  rewrite <- (fmap_S_seq 0 k), <- list_fmap_compose.
  apply list_fmap_ext. intros n x _. simpl. lia.
Qed.

(** The inner loop says whether a line after the header closes the block. *)
Lemma block_closed_seq lines a n :
  a + n ≤ length lines →
  block_closed lines (Z.of_nat <$> seq a n)
  = Ok (existsb (λ l, closes_block (strip l)) (firstn n (drop a lines))).
Proof.
  revert a. induction n as [|n IH]; intros a Ha; simpl; [reflexivity|].
  destruct (py_index_lt lines a) as (x & Hx & ->); [lia|]. simpl.
  rewrite (drop_S _ _ _ Hx). simpl.
  destruct (closes_block (strip x)); [reflexivity|].
  apply IH. lia.
Qed.

Lemma block_closed_after lines i :
  i < length lines →
  block_closed lines (range_up (Z.of_nat i + 1) (Z.of_nat (length lines)))
  = Ok (existsb (λ l, closes_block (strip l)) (drop (S i) lines)).
Proof.
  intros Hi. replace (Z.of_nat i + 1)%Z with (Z.of_nat (S i)) by lia.
  rewrite range_up_seq, block_closed_seq by lia.
  rewrite take_ge; [reflexivity|]. rewrite length_drop. lia.
Qed.

Lemma existsb_drop_false lines i :
  existsb (λ l, closes_block (strip l)) (drop (S i) lines) = false
  ↔ ∀ j l, i < j → lines !! j = Some l → closes_block (strip l) = false.
Proof.
  split.
  - intros H j l Hj Hl.
    destruct (closes_block (strip l)) eqn:E; [|reflexivity].
    assert (existsb (λ l, closes_block (strip l)) (drop (S i) lines) = true) as Ht.
    { apply existsb_exists. exists l. split; [|exact E].
      apply list_elem_of_In, list_elem_of_lookup. exists (j - S i).
      rewrite lookup_drop. replace (S i + (j - S i)) with j by lia. exact Hl. }
    congruence.
  - intros H. apply not_true_is_false. intros Ht.
    apply existsb_exists in Ht as (l & Hin & Hc).
    apply list_elem_of_In, list_elem_of_lookup in Hin as [n Hn].
    rewrite lookup_drop in Hn. rewrite (H (S i + n) l) in Hc; [discriminate|lia|exact Hn].
Qed.

Lemma multiline_scan_spec lines k :
  k ≤ length lines →
  (∀ j l, k ≤ j → lines !! j = Some l → is_block_header l = false) →
  ∃ b, multiline_scan lines (range_down (Z.of_nat k - 1) (-1)) = Ok b
    ∧ (b = true ↔
       ∃ i h, lines !! i = Some h ∧ is_block_header h = true ∧ open_from lines i).
Proof.
  induction k as [|k IH]; intros Hk Hafter.
  - exists false. split; [reflexivity|]. split; [discriminate|].
    intros (i & h & Hh & Hhead & _). rewrite (Hafter i h) in Hhead; [discriminate|lia|done].
  - rewrite range_down_S. simpl.
    destruct (py_index_lt lines k) as (x & Hx & ->); [lia|]. simpl.
    destruct (is_block_header x) eqn:Ex.
    + rewrite block_closed_after by lia. simpl.
      eexists. split; [reflexivity|]. rewrite negb_true_iff, existsb_drop_false.
      split.
      * intros Hc. exists k, x. repeat split; [exact Hx|exact Ex| |by apply (Hc j)].
        apply (Hafter j); [lia|done].
      * intros (i & h & Hh & Hhead & Hopen) j l Hj Hl.
        destruct (decide (i = k)) as [->|Hne]; [by apply (Hopen j l)|].
        destruct (decide (i < k)) as [Hlt|Hge].
        -- destruct (Hopen k x Hlt Hx) as [Hnot _]. congruence.
        -- rewrite (Hafter i h) in Hhead; [discriminate|lia|done].
    + apply IH; [lia|]. intros j l Hj Hl.
      destruct (decide (j = k)) as [->|Hne]; [congruence|].
      apply (Hafter j); [lia|done].
Qed.

Lemma open_block_iff_last_header_unclosed_aux lines :
  ∃ b,
    is_in_multiline_block lines = Ok b
    ∧ (b = true ↔
       ∃ i h, lines !! i = Some h ∧ is_block_header h = true ∧ open_from lines i).
Proof.
  destruct lines as [|x lines].
  - exists false. split; [reflexivity|]. split; [discriminate|].
    intros (i & h & Hh & _). by rewrite lookup_nil in Hh.
  - unfold is_in_multiline_block.
    apply (multiline_scan_spec (x :: lines) (length (x :: lines))); [lia|].
    intros j l Hj Hl. apply lookup_lt_Some in Hl. lia.
Qed.

(** X10. [is_in_multiline_block] returns on every buffer, and it says that
    a block is open exactly when the buffer holds a header line (one with
    [markdown_exec] and [WARNING] or [ERROR]) after which there is no other
    header and no line that closes a block. *)
Theorem open_block_iff_last_header_unclosed lines :
  ∃ b,
    is_in_multiline_block lines = Ok b
    ∧ (b = true ↔
       ∃ i h, lines !! i = Some h ∧ is_block_header h = true
              ∧ ∀ j l, i < j → lines !! j = Some l →
                  is_block_header l = false ∧ closes_block (strip l) = false).
Proof. apply open_block_iff_last_header_unclosed_aux. Qed.

End Multiline.

Section ClosedBlocks.
Implicit Types (lines : list string) (i j k : nat).

Lemma level3_is_level4 c :
  is_Some (re_match RE_LEVEL3 c) → is_Some (re_match RE_LEVEL4 c).
Proof.
  unfold re_match, RE_LEVEL3, RE_LEVEL4, cat. simpl foldr. cbn [rmatch alt].
  repeat case_match; done.
Qed.

Lemma dated_is_date c :
  is_Some (re_match RE_DATED_LEVEL3 c) → is_Some (re_match RE_DATE c).
Proof.
  unfold re_match, RE_DATED_LEVEL3, RE_DATE, cat at 1. simpl foldr at 1. cbn [rmatch].
  change DATE with (erase DATE) at 2. apply rmatch_erase. done.
Qed.

(** A line that closes a block for [is_in_multiline_block] stops the scan of
    [parse_markdown_exec_issue]. *)
Lemma closes_block_is_stop c : closes_block c = true → is_stop c = true.
Proof.
  unfold closes_block, is_stop.
  intros [_ [H|H]%orb_true_iff]%andb_true_iff; apply matches_Some in H.
  - apply level3_is_level4, matches_Some in H. by rewrite H.
  - apply dated_is_date, matches_Some in H. rewrite H. by rewrite orb_true_r.
Qed.

Lemma scan_list_stops_by rest i st n l :
  rest !! n = Some l → is_stop (strip l) = true →
  (scan_list rest i st).2 ≤ i + n.
Proof.
  revert i st n. induction rest as [|x rest IH]; intros i st n Hn Hstop; [done|].
  simpl. destruct n as [|n]; simpl in Hn.
  - injection Hn as ->. unfold scan_step. cbv zeta.
    rewrite !bool_decide_eq_false_2, Hstop; [simpl; lia| |];
      intros E; rewrite E in Hstop; vm_compute in Hstop; discriminate.
  - destruct (scan_step st x) as [st'|]; simpl; [|lia].
    specialize (IH (S i) st' n Hn Hstop). lia.
Qed.

(** X11. The two functions agree on where a block ends: when
    [is_in_multiline_block] says that the block of the last header of the
    buffer is closed, [parse_markdown_exec_issue] at that header stops at a
    line inside the buffer, not at its end. *)
Theorem closed_block_ends_inside lines i h lvl :
  lines !! i = Some h → is_block_header h = true →
  (∀ j l, i < j → lines !! j = Some l → is_block_header l = false) →
  is_in_multiline_block lines = Ok false →
  ∃ issue e,
    parse_markdown_exec_issue lines i lvl = Ok (Some issue, e)
    ∧ i < e < length lines.
Proof.
  intros Hh Hhead Hlast Hclosed.
  assert (i < length lines) as Hi by (by apply lookup_lt_Some in Hh).
  destruct (parse_markdown_exec_issue_ok lines i lvl Hi) as (issue & E & _).
  eexists issue, _. split; [exact E|].
  pose proof (scan_list_index (drop (i + 1) lines) (i + 1) scan_init) as Hidx.
  split; [lia|].
  destruct (existsb (λ l, closes_block (strip l)) (drop (S i) lines)) eqn:Hex.
  - apply existsb_exists in Hex as (l & Hin & Hc).
    apply list_elem_of_In, list_elem_of_lookup in Hin as [n Hn].
    replace (S i) with (i + 1) in Hn by lia.
    pose proof (scan_list_stops_by _ (i + 1) scan_init n l Hn
                  (closes_block_is_stop _ Hc)) as Hle.
    apply lookup_lt_Some in Hn. rewrite length_drop in Hn. lia.
  - destruct (open_block_iff_last_header_unclosed_aux lines) as (b & Hb & Hiff).
    rewrite Hclosed in Hb. injection Hb as <-.
    destruct Hiff as [_ Hiff]. discriminate Hiff.
    exists i, h. repeat split; [exact Hh|exact Hhead|by apply (Hlast j)|].
    by apply (proj1 (existsb_drop_false lines i) Hex j).
Qed.

Lemma closed_block_ends_inside_witness :
  ∃ issue e,
    parse_markdown_exec_issue
      ["WARNING -  markdown_exec: failed"; "Output is:"; "  boom"; "INFO -  Done"]
      0 WARNING = Ok (Some issue, e)
    ∧ 0 < e < 4.
Proof.
  apply (closed_block_ends_inside
    ["WARNING -  markdown_exec: failed"; "Output is:"; "  boom"; "INFO -  Done"]
    0 "WARNING -  markdown_exec: failed" WARNING).
  - reflexivity.
  - vm_compute. reflexivity.
  - intros [|[|[|[|j]]]] l Hj Hl; try lia; vm_compute in Hl; try discriminate;
      injection Hl as <-; vm_compute; reflexivity.
  - vm_compute. reflexivity.
Defined.

End ClosedBlocks.

(** ** Dedenting *)

Section Dedent.
Implicit Types (s l : string) (m n : nat).

Lemma py_split_nonempty sep s : py_split sep s ≠ [].
Proof.
  destruct s as [|c s]; simpl; [done|].
  destruct (Ascii.eqb c sep); [done|]. destruct (py_split sep s); done.
Qed.

Lemma join_cons_char sep c h t :
  join sep (String c h :: t) = String c (join sep (h :: t)).
Proof. unfold join. destruct t; reflexivity. Qed.

(** Splitting at newlines and joining with newlines gives the string back. *)
Lemma join_py_split s : join newline (py_split "010" s) = s.
Proof.
  induction s as [|c s IH]; [reflexivity|]. simpl.
  destruct (Ascii.eqb_spec c "010") as [->|Hc].
  - destruct (py_split "010" s) as [|h t] eqn:E; [by apply py_split_nonempty in E|].
    unfold join in *. simpl. simpl in IH. by rewrite IH.
  - destruct (py_split "010" s) as [|h t] eqn:E; [by apply py_split_nonempty in E|].
    rewrite join_cons_char. by rewrite IH.
Qed.

Lemma py_split_no_newline s : Forall (λ l, no_newline l = true) (py_split "010" s).
Proof.
  induction s as [|c s IH]; simpl; [by repeat constructor|].
  destruct (Ascii.eqb c "010") eqn:Ec; [by constructor|].
  destruct (py_split "010" s) as [|h t].
  { constructor; [|constructor]. unfold no_newline. simpl. by rewrite Ec. }
  apply Forall_cons_1 in IH as [Hh Ht]. constructor; [|exact Ht].
  unfold no_newline. simpl. rewrite Ec. exact Hh.
Qed.

Lemma py_split_line l : no_newline l = true → py_split "010" l = [l].
Proof.
  induction l as [|c l IH]; simpl; [reflexivity|].
  unfold no_newline. simpl. intros [Hc Hl]%andb_true_iff.
  apply negb_true_iff in Hc. rewrite Hc, (IH Hl). reflexivity.
Qed.

Lemma py_split_join ls :
  ls ≠ [] → Forall (λ l, no_newline l = true) ls →
  py_split "010" (join newline ls) = ls.
Proof.
  intros Hne Hall. induction Hall as [|l ls Hl Hls IH]; [done|].
  destruct ls as [|l2 ls].
  - unfold join. simpl. by apply py_split_line.
  - specialize (IH ltac:(done)).
    assert (join newline (l :: l2 :: ls)
            = l +:+ String "010" (join newline (l2 :: ls))) as -> by reflexivity.
    clear Hls Hne. revert Hl. induction l as [|c l IHl]; intros Hl.
    + change ("" +:+ String "010" (join newline (l2 :: ls)))
        with (String "010" (join newline (l2 :: ls))).
      assert (∀ x, py_split "010" (String "010" x) = "" :: py_split "010" x) as Hnl
        by reflexivity.
      by rewrite Hnl, IH.
    + unfold no_newline in Hl. simpl in Hl. apply andb_true_iff in Hl as [Hc Hl].
      apply negb_true_iff in Hc.
      change (String c l +:+ ?x) with (String c (l +:+ x)).
      cbn [py_split]. rewrite Hc, (IHl Hl). reflexivity.
Qed.

Lemma length_lstrip_le s : String.length (lstrip s) ≤ String.length s.
Proof.
  induction s as [|c s IH]; simpl; [lia|]. destruct (isspace c); simpl; lia.
Qed.

Lemma indent_of_cons c s :
  indent_of (String c s) = if isspace c then S (indent_of s) else 0.
Proof.
  unfold indent_of. simpl. pose proof (length_lstrip_le s).
  destruct (isspace c); simpl; lia.
Qed.

Lemma strip_cons_space c s : isspace c = true → strip (String c s) = strip s.
Proof.
  intros Hc. unfold strip. simpl. rewrite Hc.
  destruct (rstrip s) eqn:E; simpl; [reflexivity|by rewrite Hc].
Qed.

(** The first [m] characters of a line indented by [m] or more are
    whitespace. *)
Lemma take_drop_indent m l :
  m ≤ indent_of l →
  l = PyStr.take m l +:+ drop_chars m l
  ∧ all_chars isspace (PyStr.take m l) = true
  ∧ String.length (PyStr.take m l) = m
  ∧ strip (drop_chars m l) = strip l
  ∧ indent_of (drop_chars m l) = indent_of l - m.
Proof.
  revert l. induction m as [|m IH]; intros l Hm.
  - destruct l; simpl; repeat split; lia.
  - destruct l as [|c l]; [unfold indent_of in Hm; simpl in Hm; lia|].
    rewrite indent_of_cons in Hm. destruct (isspace c) eqn:Ec; [|lia].
    destruct (IH l) as (H1 & H2 & H3 & H4 & H5); [lia|].
    simpl. rewrite Ec, indent_of_cons, Ec, strip_cons_space by done.
    change (String c ?a +:+ ?b) with (String c (a +:+ b)).
    rewrite <- H1. repeat split; try done; lia.
Qed.

Lemma no_newline_drop m l : no_newline l = true → no_newline (drop_chars m l) = true.
Proof.
  revert l. induction m as [|m IH]; intros l; [by destruct l|].
  destruct l as [|c l]; [done|]. unfold no_newline. simpl.
  intros [_ H]%andb_true_iff. by apply IH.
Qed.

Lemma indent_lt_length l : truthy (strip l) = true → indent_of l < String.length l.
Proof.
  intros H. unfold indent_of. pose proof (length_lstrip_le l).
  destruct (lstrip l) eqn:E; [|simpl in *; lia].
  exfalso. unfold strip in H. rewrite <- rstrip_lstrip, E in H. discriminate.
Qed.

Lemma indent_blank l : truthy (strip l) = false → indent_of l = String.length l.
Proof.
  induction l as [|c l IH]; [reflexivity|]. rewrite indent_of_cons.
  destruct (isspace c) eqn:Ec.
  - rewrite strip_cons_space by done. intros H. simpl. by rewrite IH.
  - unfold strip. simpl. rewrite Ec, andb_false_r. simpl. by rewrite Ec.
Qed.

(** What the loop over the lines computes. *)
Lemma min_indent_spec lines acc :
  match foldl min_indent_step acc lines with
  | None => acc = None ∧ Forall (λ l, truthy (strip l) = false) lines
  | Some m =>
      (∀ a, acc = Some a → m ≤ a)
      ∧ Forall (λ l, truthy (strip l) = true → m ≤ indent_of l) lines
      ∧ (acc = Some m
         ∨ ∃ l, l ∈ lines ∧ truthy (strip l) = true ∧ indent_of l = m)
  end.
Proof.
  revert acc. induction lines as [|l lines IH]; intros acc; simpl.
  - destruct acc as [a|]; [|done]. split; [by intros ? [= ->]|]. split; [done|by left].
  - specialize (IH (min_indent_step acc l)). unfold min_indent_step in *.
    destruct (foldl _ _ lines) as [m|].
    + destruct IH as (Hle & Hall & Hex).
      destruct (truthy (strip l)) eqn:Et.
      * destruct acc as [a|].
        -- specialize (Hle _ eq_refl). split; [intros ? [= <-]; lia|].
           split; [constructor; [intros _; lia|exact Hall]|].
           destruct Hex as [[= Hm]|(l' & Hin & Hl')].
           ++ destruct (Nat.min_spec a (indent_of l)) as [[_ E]|[_ E]]; rewrite E in Hm.
              ** by left; rewrite Hm.
              ** right. exists l. split; [by left|done].
           ++ right. exists l'. split; [by right|done].
        -- specialize (Hle _ eq_refl). split; [done|].
           split; [constructor; [intros _; lia|exact Hall]|].
           right. destruct Hex as [[= Hm]|(l' & Hin & Hl')].
           ++ exists l. split; [by left|done].
           ++ exists l'. split; [by right|done].
      * split; [exact Hle|]. split; [constructor; [congruence|exact Hall]|].
        destruct Hex as [Hm|(l' & Hin & Hl')]; [by left|].
        right. exists l'. split; [by right|done].
    + destruct IH as [Hacc Hall]. destruct (truthy (strip l)) eqn:Et.
      * destruct acc; discriminate.
      * split; [exact Hacc|]. by constructor.
Qed.

Lemma dedent_line_spec m l :
  (truthy (strip l) = true → m ≤ indent_of l) →
  ∃ ws, l = ws +:+ dedent_line m l
    ∧ all_chars isspace ws = true
    ∧ (truthy (strip l) = true → String.length ws = m)
    ∧ strip (dedent_line m l) = strip l
    ∧ (truthy (strip l) = true → indent_of (dedent_line m l) = indent_of l - m).
Proof.
  intros Hm. unfold dedent_line, py_slice_from.
  assert ((0 <=? Z.of_nat m)%Z = true) as -> by (apply Z.leb_le; lia).
  rewrite Nat2Z.id.
  destruct (Nat.ltb_spec m (String.length l)) as [Hlt|Hge].
  - assert (m ≤ indent_of l) as Hle.
    { destruct (truthy (strip l)) eqn:Et; [by apply Hm|]. rewrite indent_blank; [lia|done]. }
    destruct (take_drop_indent m l Hle) as (H1 & H2 & H3 & H4 & H5).
    exists (PyStr.take m l). done.
  - exists "". repeat split; try done.
    + intros Ht. pose proof (indent_lt_length l Ht). specialize (Hm Ht). simpl. lia.
    + intros Ht. pose proof (indent_lt_length l Ht). specialize (Hm Ht). lia.
Qed.

Lemma dedent_line_zero l : dedent_line 0 l = l.
Proof. unfold dedent_line, py_slice_from. destruct l; reflexivity. Qed.

Lemma no_newline_dedent_line m l :
  no_newline l = true → no_newline (dedent_line m l) = true.
Proof.
  intros H. unfold dedent_line, py_slice_from.
  destruct (m <? String.length l); [|exact H].
  destruct (0 <=? Z.of_nat m)%Z; by apply no_newline_drop.
Qed.

(** The lines of the result of [dedent_code], for the minimum [m] of the
    first pass. *)
Lemma dedent_code_lines code m :
  foldl min_indent_step None (py_split "010" code) = Some m →
  dedent_code code = join newline (dedent_line m <$> py_split "010" code)
  ∧ py_split "010" (dedent_code code) = dedent_line m <$> py_split "010" code.
Proof.
  intros Hm. unfold dedent_code. cbv zeta. rewrite Hm.
  destruct (py_split "010" code) as [|l ls] eqn:E; [by apply py_split_nonempty in E|].
  split; [reflexivity|]. apply py_split_join; [done|].
  apply Forall_fmap. pose proof (py_split_no_newline code) as Hnl. rewrite E in Hnl.
  rewrite list.Forall_forall in Hnl. apply list.Forall_forall. intros x Hx.
  simpl. by apply no_newline_dedent_line, Hnl.
Qed.

Lemma dedent_code_none code :
  foldl min_indent_step None (py_split "010" code) = None → dedent_code code = code.
Proof.
  intros Hm. unfold dedent_code. cbv zeta. rewrite Hm.
  by destruct (py_split "010" code).
Qed.

(** After [dedent_code] the smallest indentation of the non-blank lines
    is zero. *)
Lemma dedent_code_min code :
  foldl min_indent_step None (py_split "010" (dedent_code code))
  = match foldl min_indent_step None (py_split "010" code) with
    | Some _ => Some 0
    | None => None
    end.
Proof.
  destruct (foldl min_indent_step None (py_split "010" code)) as [m|] eqn:Hm.
  2:{ by rewrite (dedent_code_none code Hm). }
  destruct (dedent_code_lines code m Hm) as [Hr Hs].
  pose proof (min_indent_spec (py_split "010" code) None) as Hspec. rewrite Hm in Hspec.
  destruct Hspec as (_ & Hall & [?|(l & Hin & Ht & Hi)]); [done|].
  pose proof (min_indent_spec (py_split "010" (dedent_code code)) None) as H2.
  rewrite Hs in *.
  destruct (dedent_line_spec m l) as (ws & _ & _ & _ & Hst & Hind); [by rewrite Hi|].
  destruct (foldl min_indent_step None (dedent_line m <$> py_split "010" code)) as [m2|].
  - destruct H2 as (_ & Hall2 & _). f_equal.
    rewrite list.Forall_forall in Hall2.
    specialize (Hall2 (dedent_line m l)
                  ltac:(by apply list_elem_of_fmap; exists l)).
    rewrite Hst in Hall2. specialize (Hall2 Ht). rewrite (Hind Ht) in Hall2. lia.
  - destruct H2 as [_ Hall2]. rewrite list.Forall_forall in Hall2.
    specialize (Hall2 (dedent_line m l)
                  ltac:(by apply list_elem_of_fmap; exists l)).
    rewrite Hst in Hall2. congruence.
Qed.

(** X12. [dedent_code] is idempotent: a second pass changes nothing, since
    after the first the smallest indentation of the non-blank lines is zero
    (or there is no non-blank line). *)
Theorem dedent_code_idempotent code :
  dedent_code (dedent_code code) = dedent_code code
  ∧ (foldl min_indent_step None (py_split "010" (dedent_code code)) = Some 0
     ∨ foldl min_indent_step None (py_split "010" (dedent_code code)) = None).
Proof.
  pose proof (dedent_code_min code) as Hmin.
  destruct (foldl min_indent_step None (py_split "010" code)) as [m|] eqn:Hm.
  2:{ split; [by rewrite !(dedent_code_none code Hm)|by right]. }
  split; [|by left].
  destruct (dedent_code_lines code m Hm) as [Hr Hs].
  destruct (dedent_code_lines (dedent_code code) 0 Hmin) as [Hr2 _].
  rewrite Hr2, Hs. rewrite <- list_fmap_compose.
  rewrite Hr. f_equal. apply list_fmap_ext. intros i x _. apply dedent_line_zero.
Qed.

(** X13. [dedent_code] keeps the lines and removes only leading whitespace:
    the result has as many lines as the code, each line of the code is a
    run of whitespace followed by the line of the result, and the run has
    the same length for all non-blank lines. *)
Theorem dedent_code_removes_common_indent code :
  ∃ m,
    length (py_split "010" (dedent_code code)) = length (py_split "010" code)
    ∧ ∀ i l, py_split "010" code !! i = Some l →
        ∃ ws l',
          py_split "010" (dedent_code code) !! i = Some l'
          ∧ l = ws +:+ l'
          ∧ all_chars isspace ws = true
          ∧ (truthy (strip l) = true → String.length ws = m).
Proof.
  destruct (foldl min_indent_step None (py_split "010" code)) as [m|] eqn:Hm.
  - destruct (dedent_code_lines code m Hm) as [_ Hs].
    pose proof (min_indent_spec (py_split "010" code) None) as Hspec. rewrite Hm in Hspec.
    destruct Hspec as (_ & Hall & _). rewrite list.Forall_forall in Hall.
    exists m. rewrite Hs. split; [apply length_fmap|].
    intros i l Hl.
    destruct (dedent_line_spec m l) as (ws & H1 & H2 & H3 & _).
    { apply Hall. by apply list_elem_of_lookup_2 with i. }
    exists ws, (dedent_line m l). rewrite list_lookup_fmap, Hl. done.
  - rewrite (dedent_code_none code Hm). exists 0. split; [reflexivity|].
    intros i l Hl. exists "", l. repeat split; done.
Qed.

End Dedent.

(** ** The spinner line *)

Section Truncate.
Import Display.

Lemma length_append a b : String.length (a +:+ b) = String.length a + String.length b.
Proof.
  induction a as [|c a IH]; [reflexivity|].
  change (String c a +:+ b) with (String c (a +:+ b)). simpl. by rewrite IH.
Qed.

Lemma length_take n s : String.length (PyStr.take n s) = Nat.min n (String.length s).
Proof.
  revert s. induction n as [|n IH]; intros s; [reflexivity|].
  destruct s as [|c s]; [reflexivity|]. simpl. by rewrite IH.
Qed.

Lemma length_spaces n : String.length (spaces n) = n.
Proof. induction n as [|n IH]; [reflexivity|]. simpl. by rewrite IH. Qed.

Lemma append_assoc3 a b c : (a +:+ b) +:+ c = a +:+ (b +:+ c).
Proof.
  induction a as [|x a IH]; [reflexivity|].
  change (String x a +:+ b) with (String x (a +:+ b)).
  change (String x (a +:+ b) +:+ c) with (String x ((a +:+ b) +:+ c)).
  change (String x a +:+ (b +:+ c)) with (String x (a +:+ (b +:+ c))).
  by rewrite IH.
Qed.

Lemma strip_prefix_Some p s s' : strip_prefix p s = Some s' → s = p +:+ s'.
Proof.
  revert s. induction p as [|a p IH]; intros s; simpl.
  - by intros [= ->].
  - destruct s as [|b s]; [discriminate|].
    destruct (Ascii.eqb_spec a b) as [->|]; [|discriminate].
    intros H%IH. change (String b p +:+ s') with (String b (p +:+ s')). by rewrite <- H.
Qed.

Lemma take_drop_chars n s : s = PyStr.take n s +:+ drop_chars n s.
Proof.
  revert s. induction n as [|n IH]; intros s; [by destruct s|].
  destruct s as [|c s]; [reflexivity|]. simpl.
  change (String c ?a +:+ ?b) with (String c (a +:+ b)). by rewrite <- IH.
Qed.

Lemma suffix_cons {R} c s (k : string → option R) x :
  (∃ pre s', s = pre +:+ s' ∧ k s' = Some x) →
  ∃ pre s', String c s = pre +:+ s' ∧ k s' = Some x.
Proof. intros (pre & s' & -> & H). by exists (String c pre), s'. Qed.

Lemma suffix_here {R} s (k : string → option R) x :
  k s = Some x → ∃ pre s', s = pre +:+ s' ∧ k s' = Some x.
Proof. intros H. by exists "", s. Qed.

Lemma rep_greedy_suffix {R} p lo hi s (k : string → option R) x :
  rep_greedy p lo hi s k = Some x → ∃ pre s', s = pre +:+ s' ∧ k s' = Some x.
Proof.
  revert lo hi. induction s as [|c s IH]; intros lo hi; simpl.
  - destruct (lo =? 0)%nat; [apply suffix_here|discriminate].
  - destruct (p c && hi_allows hi).
    + destruct (rep_greedy p (pred lo) (hi_pred hi) s k) eqn:E.
      * intros [= ->]. apply suffix_cons. by apply IH in E.
      * destruct (lo =? 0)%nat; [apply suffix_here|discriminate].
    + destruct (lo =? 0)%nat; [apply suffix_here|discriminate].
Qed.

Lemma rep_lazy_suffix {R} p lo hi s (k : string → option R) x :
  rep_lazy p lo hi s k = Some x → ∃ pre s', s = pre +:+ s' ∧ k s' = Some x.
Proof.
  revert lo hi. induction s as [|c s IH]; intros lo hi; simpl.
  - destruct (lo =? 0)%nat; [|discriminate]. destruct (k "") eqn:E; [|discriminate].
    intros [= ->]. by apply suffix_here.
  - destruct (lo =? 0)%nat.
    + destruct (k (String c s)) eqn:E; [intros [= ->]; by apply suffix_here|].
      destruct (p c && hi_allows hi); [|discriminate].
      intros H%IH. by apply suffix_cons.
    + destruct (p c && hi_allows hi); [|discriminate].
      intros H%IH. by apply suffix_cons.
Qed.

(** A successful match hands its continuation a suffix of the text. *)
Lemma rmatch_suffix {R} r s cs (k : string → caps → option R) x :
  rmatch r s cs k = Some x → ∃ pre s' cs', s = pre +:+ s' ∧ k s' cs' = Some x.
Proof.
  revert s cs k. induction r as [l|p|g lo hi p|r1 IH1 r2 IH2|r1 IH1 r2 IH2|m r1 IH1];
    intros s cs k; simpl.
  - destruct (strip_prefix l s) as [s'|] eqn:E; [|discriminate]. intros H.
    exists l, s', cs. split; [by apply strip_prefix_Some|exact H].
  - destruct s as [|c s]; [discriminate|]. destruct (p c); [|discriminate].
    intros H. by exists (String c ""), s, cs.
  - destruct g; [intros (pre & s' & -> & H)%rep_greedy_suffix
                |intros (pre & s' & -> & H)%rep_lazy_suffix]; by exists pre, s', cs.
  - intros (p1 & s1 & cs1 & -> & H1)%IH1.
    apply IH2 in H1 as (p2 & s2 & cs2 & -> & H2).
    exists (p1 +:+ p2), s2, cs2. split; [by rewrite append_assoc3|exact H2].
  - destruct (rmatch r1 s cs k) eqn:E.
    + intros [= ->]. by apply IH1 in E.
    + apply IH2.
  - intros (p1 & s1 & cs1 & -> & H1)%IH1. by eexists p1, s1, _.
Qed.

Lemma sub_prefix_suffix r s : ∃ pre, s = pre +:+ sub_prefix r s.
Proof.
  unfold sub_prefix, re_match.
  destruct (rmatch r s [] _) as [m|] eqn:E; [|by exists ""].
  apply rmatch_suffix in E as (pre & s' & cs' & -> & [= <-]). by exists pre.
Qed.

(** X14. [truncate_line] measures the cleaned line: the stripped line
    without its [[stderr]], timestamp and logger prefixes, a suffix of the
    stripped line.  For a width [max_len] that is not negative: when the
    cleaned line is longer than [max_len], the result is its first [max_len]
    characters followed by three dots, with or without padding; when it is
    not longer, the result without padding is the cleaned line itself, and
    the result with padding is the cleaned line followed by spaces up to
    exactly [max_len] characters, unless [max_len] is [2 ^ 63] or more, in
    which case the padding raises [OverflowError]. *)
Theorem truncate_line_width line max_len pad :
  (0 ≤ max_len)%Z →
  (∃ removed, strip line = removed +:+ clean_line line)
  ∧ (Z.to_nat max_len < String.length (clean_line line) →
     ∃ kept rest,
       clean_line line = kept +:+ rest
       ∧ String.length kept = Z.to_nat max_len
       ∧ truncate_line line max_len pad = Ok (kept +:+ "..."))
  ∧ (String.length (clean_line line) ≤ Z.to_nat max_len → pad = false →
     truncate_line line max_len pad = Ok (clean_line line))
  ∧ (String.length (clean_line line) ≤ Z.to_nat max_len → pad = true →
     (max_len < 2 ^ 63)%Z →
     ∃ r,
       truncate_line line max_len pad = Ok r
       ∧ String.length r = Z.to_nat max_len
       ∧ r = clean_line line
             +:+ spaces (Z.to_nat max_len - String.length (clean_line line)))
  ∧ (String.length (clean_line line) ≤ Z.to_nat max_len → pad = true →
     (2 ^ 63 ≤ max_len)%Z →
     truncate_line line max_len pad = Raise OverflowError).
Proof.
  intros Hm. unfold truncate_line. cbv zeta.
  change (sub_prefix RE_LOGGER_PREFIX
            (sub_prefix RE_TIMESTAMP_PREFIX (sub_prefix RE_STDERR_PREFIX (strip line))))
    with (clean_line line).
  set (cleaned := clean_line line).
  split.
  { unfold cleaned, clean_line.
    destruct (sub_prefix_suffix RE_STDERR_PREFIX (strip line)) as [p1 H1].
    destruct (sub_prefix_suffix RE_TIMESTAMP_PREFIX
                (sub_prefix RE_STDERR_PREFIX (strip line))) as [p2 H2].
    destruct (sub_prefix_suffix RE_LOGGER_PREFIX
                (sub_prefix RE_TIMESTAMP_PREFIX
                   (sub_prefix RE_STDERR_PREFIX (strip line)))) as [p3 H3].
    exists (p1 +:+ (p2 +:+ p3)).
    rewrite !append_assoc3, <- H3, <- H2. exact H1. }
  destruct (Z.ltb_spec max_len (Z.of_nat (String.length cleaned))) as [Hlt|Hge].
  - split; [|repeat split; intros; lia].
    intros _. exists (PyStr.take (Z.to_nat max_len) cleaned),
                     (drop_chars (Z.to_nat max_len) cleaned).
    split; [apply take_drop_chars|]. split; [rewrite length_take; lia|].
    unfold py_slice_to.
    assert ((0 <=? max_len)%Z = true) as -> by (by apply Z.leb_le).
    reflexivity.
  - split; [intros; lia|]. split; [by intros _ ->|]. split.
    + intros _ -> Hb. unfold py_ljust, fits_ssize_t.
      assert ((- 2 ^ 63 <=? max_len)%Z = true) as -> by (apply Z.leb_le; lia).
      assert ((max_len <? 2 ^ 63)%Z = true) as -> by (by apply Z.ltb_lt).
      simpl. eexists. split; [reflexivity|]. split; [|reflexivity].
      rewrite length_append, length_spaces. lia.
    + intros _ -> Hb. unfold py_ljust, fits_ssize_t.
      assert ((max_len <? 2 ^ 63)%Z = false) as -> by (by apply Z.ltb_ge).
      by rewrite andb_false_r.
Qed.

Lemma truncate_line_width_witness :
  ∃ r,
    truncate_line "2024-01-15 14:30:45,123 - mkdocs.commands.build - INFO - Building"
      10 true = Ok r
    ∧ String.length r = Z.to_nat 10
    ∧ r = clean_line "2024-01-15 14:30:45,123 - mkdocs.commands.build - INFO - Building"
          +:+ spaces
                (Z.to_nat 10
                 - String.length
                     (clean_line
                        "2024-01-15 14:30:45,123 - mkdocs.commands.build - INFO - Building")).
Proof.
  apply (truncate_line_width
    "2024-01-15 14:30:45,123 - mkdocs.commands.build - INFO - Building" 10 true);
    [lia|vm_compute; lia|reflexivity|lia].
Defined.

(** The worked case of the cleaning: timestamp and logger prefix go, the
    rest is padded or cut. *)
Example truncate_line_examples :
  truncate_line "2024-01-15 14:30:45,123 - mkdocs.commands.build - INFO - Building"
    10 true = Ok "Building  "
  ∧ truncate_line "  [stderr] INFO - Building documentation  " 8 true = Ok "INFO - B..."
  ∧ truncate_line "short" 60 false = Ok "short"
  ∧ truncate_line "short" (2 ^ 63) true = Raise OverflowError
  ∧ truncate_line "a much longer line" (2 ^ 63) true = Raise OverflowError.
Proof. repeat split; vm_compute; reflexivity. Qed.

End Truncate.

(** ** The identifier dictionary and the state file *)

Section ServerState.
Import Types McpServer.


(** X16. A snapshot newer than the last one seen is taken over in watch
    mode: the refresh returns true, the issues, info messages, build info,
    raw output and build status are those of the snapshot, and the
    identifier dictionary is kept.  A second refresh from the same state
    file returns false and changes nothing. *)
Theorem newer_snapshot_loaded_once read_state_file self snapshot :
  watch_mode self = true →
  read_state_file (project_dir self) = Some snapshot →
  PrimFloat.leb (timestamp snapshot) (_last_state_timestamp self) = false →
  PrimFloat.leb (timestamp snapshot) (timestamp snapshot) = true →
  let r := _refresh_from_state_file read_state_file self in
  r.1 = true
  ∧ issues r.2 = state_issues snapshot
  ∧ info_messages r.2 = state_info_messages snapshot
  ∧ build_info r.2 = state_build_info snapshot
  ∧ raw_output r.2 = state_raw_output snapshot
  ∧ _build_status r.2 = build_status snapshot
  ∧ _build_started_at r.2 = build_started_at snapshot
  ∧ _last_state_timestamp r.2 = timestamp snapshot
  ∧ _issue_ids r.2 = _issue_ids self
  ∧ _refresh_from_state_file read_state_file r.2 = (false, r.2).
Proof.
  intros Hw Hread Hnew Hrefl. cbv zeta. unfold _refresh_from_state_file.
  rewrite Hw, Hread. simpl. rewrite Hnew. simpl.
  rewrite Hw, Hread. simpl. rewrite Hrefl.
  repeat split.
Qed.

Lemma newer_snapshot_loaded_once_witness :
  let snapshot :=
    {| build_status := "complete"; build_started_at := None;
       timestamp := 12.5%float; state_issues := []; state_info_messages := [];
       state_build_info :=
         {| server_url := None; build_dir := None; build_time := Some "1.00" |};
       state_raw_output := ["INFO -  Documentation built in 1.00 seconds"] |} in
  let r := _refresh_from_state_file (λ _, Some snapshot) (new_server None false true) in
  r.1 = true ∧ raw_output r.2 = ["INFO -  Documentation built in 1.00 seconds"].
Proof.
  cbv zeta.
  pose proof (newer_snapshot_loaded_once
    (λ _, Some
       {| build_status := "complete"; build_started_at := None;
          timestamp := 12.5%float; state_issues := []; state_info_messages := [];
          state_build_info :=
            {| server_url := None; build_dir := None; build_time := Some "1.00" |};
          state_raw_output := ["INFO -  Documentation built in 1.00 seconds"] |})
    (new_server None false true) _ eq_refl eq_refl eq_refl eq_refl)
    as (H1 & _ & _ & _ & H5 & _).
  split; [exact H1|exact H5].
Defined.

End ServerState.

(** ** The nearest hint *)

Section NearestHint.
Implicit Types (lines pre mid rest : list string) (k : nat).

Lemma range_down_cons k (b : Z) :
  (b < Z.of_nat k)%Z →
  range_down (Z.of_nat (S k) - 1) b = Z.of_nat k :: range_down (Z.of_nat k - 1) b.
Proof.
  intros Hb. unfold range_down.
  replace (Z.to_nat (Z.of_nat (S k) - 1 - b)) with (S (Z.to_nat (Z.of_nat k - 1 - b)))
    by lia.
  simpl. f_equal; [lia|].
  rewrite <- (fmap_S_seq 0), <- list_fmap_compose.
  apply list_fmap_ext. intros n x _. simpl. lia.
Qed.

Lemma find_file_nearest pre hintline mid tail (b : Z) f :
  (b < Z.of_nat (length pre))%Z →
  Forall (λ l, file_hint l = Ok None) mid →
  file_hint hintline = Ok (Some f) →
  find_file (pre ++ hintline :: mid ++ tail)
    (range_down (Z.of_nat (length pre + 1 + length mid) - 1) b) = Ok f.
Proof.
  intros Hb Hmid Hhint. revert tail.
  induction mid as [|x mid IH] using rev_ind; intros tail.
  - simpl. replace (length pre + 1 + 0) with (S (length pre)) by lia.
    rewrite range_down_cons by exact Hb. simpl.
    rewrite (py_index_nat _ _ hintline) by (by rewrite list_lookup_middle).
    simpl. by rewrite Hhint.
  - apply Forall_app in Hmid as [Hmid Hx]. apply Forall_inv in Hx.
    rewrite length_app. simpl.
    replace (length pre + 1 + (length mid + 1)) with (S (length pre + 1 + length mid))
      by lia.
    rewrite range_down_cons by lia. simpl.
    rewrite <- app_assoc. simpl.
    rewrite (py_index_nat (pre ++ hintline :: mid ++ x :: tail)
               (length pre + 1 + length mid) x).
    2:{ rewrite (cons_middle hintline), !app_assoc.
        rewrite list_lookup_middle; [reflexivity|]. rewrite !length_app. simpl. lia. }
    simpl. rewrite Hx. simpl. apply IH. exact Hmid.
Qed.

Lemma join_cons_prefix sep f parts :
  ∃ tail, join sep (f :: parts) = f +:+ tail.
Proof.
  unfold join. destruct parts as [|p parts]; simpl.
  - exists "". induction f as [|c f IH]; [reflexivity|].
    change (String c f +:+ "") with (String c (f +:+ "")). by rewrite <- IH.
  - eexists. reflexivity.
Qed.

(** X17. The file of a reconstructed issue comes from the nearest line
    before the header that gives a hint, when fewer than 49 lines without a
    hint lie between them: the file of the issue starts with the file that
    this line names, whatever the lines before it say. *)
Theorem nearest_hint_wins pre hintline mid header rest f lvl :
  length mid < 49 →
  Forall (λ l, file_hint l = Ok None) mid →
  file_hint hintline = Ok (Some (Some f)) → f ≠ "" →
  ∃ issue e tail,
    parse_markdown_exec_issue (pre ++ hintline :: mid ++ header :: rest)
      (length pre + 1 + length mid) lvl = Ok (Some issue, e)
    ∧ file issue = Some (f +:+ tail).
Proof.
  intros Hlen Hmid Hhint Hf. unfold parse_markdown_exec_issue. cbv zeta.
  rewrite (find_file_nearest pre hintline mid (header :: rest) _ (Some f));
    [|lia|exact Hmid|exact Hhint].
  cbn [mbind res_bind]. rewrite scan_loop_list by lia.
  destruct (scan_list _ _ _) as [st e]. simpl.
  unfold location_parts. destruct f as [|c f]; [done|]. simpl opt_truthy. cbv iota.
  simpl default.
  destruct (join_cons_prefix location_sep (String c f)
              ((if opt_truthy (session_info st)
                then ["session '" +:+ default "" (session_info st) +:+ "'"] else [])
               ++ (if opt_truthy (line_number st)
                   then ["line " +:+ default "" (line_number st)] else [])))
    as [tail Ht].
  eexists _, e, tail. split; [reflexivity|]. simpl. by rewrite <- Ht.
Qed.

Lemma nearest_hint_wins_witness :
  ∃ issue e tail,
    parse_markdown_exec_issue
      (["DEBUG   -  Reading: old.md"] ++ "DEBUG   -  Reading: test.md"
        :: ["INFO -  rendering"] ++ "WARNING -  markdown_exec: failed" :: ["INFO -  Done"])
      (length ["DEBUG   -  Reading: old.md"] + 1 + length ["INFO -  rendering"]) WARNING
    = Ok (Some issue, e)
    ∧ file issue = Some ("test.md" +:+ tail).
Proof.
  apply (nearest_hint_wins ["DEBUG   -  Reading: old.md"] "DEBUG   -  Reading: test.md"
           ["INFO -  rendering"] "WARNING -  markdown_exec: failed" ["INFO -  Done"]
           "test.md" WARNING).
  - simpl. lia.
  - repeat constructor.
  - vm_compute. reflexivity.
  - discriminate.
Defined.

End NearestHint.
